(** * SCION beacon server: a shallow embedding of
    [infrastructure/beacon_server.py] and the properties of its
    propagation and registration protocol.

    The server is Python 3 code.  Python objects that are mutated in place
    (path construction beacons) live in an explicit store and are passed
    around by reference; [copy.deepcopy] allocates.  Exceptions are a
    result of their own, next to the state reached when they were raised.
    The packet library ([lib.packet.*]) is outside the server's file: what
    the server needs of it is the interface [PacketLib]. *)

From Stdlib Require Import ZArith QArith Qround List Bool Lia.
From stdpp Require Import base option list gmap.

Local Open Scope Z_scope.

(** ** Opaque fields ([lib.packet.opaque_field]) as the server uses them *)

(** [OpaqueFieldType]: the server names one info type, [OFT.TDC_XOVR];
    received beacons may carry any other. *)
Inductive OpaqueFieldType : Type :=
| TDC_XOVR
| OFT_code (code : Z).

(** The timestamp is whatever number the server hands to [from_values]:
    Python 3's [/] gives a float, kept here as the rational it stands for. *)
Record InfoOpaqueField : Type := mkInfoOpaqueField {
  iof_info : OpaqueFieldType;
  iof_timestamp : Q;
  iof_isd_id : Z
}.

Record HopOpaqueField : Type := mkHopOpaqueField {
  ingress_if : Z;
  egress_if : Z
}.

Record SupportSignatureField : Type := mkSupportSignatureField {
  block_size : Z
}.

Record SupportPCBField : Type := mkSupportPCBField {
  spcbf_isd_id : Z
}.

Record SupportPeerField : Type := mkSupportPeerField {
  spf_isd_id : Z
}.

Record ROTField : Type := mkROTField {
  if_id : Z
}.

Definition InfoOpaqueField_from_values
  (info : OpaqueFieldType) (timestamp : Q) (isd : Z) : InfoOpaqueField :=
  mkInfoOpaqueField info timestamp isd.

Definition HopOpaqueField_from_values (ingress egress : Z) : HopOpaqueField :=
  mkHopOpaqueField ingress egress.

Definition SupportPCBField_from_values (isd : Z) : SupportPCBField :=
  mkSupportPCBField isd.

Definition SupportPeerField_from_values (isd : Z) : SupportPeerField :=
  mkSupportPeerField isd.

(** ** Beacons ([lib.packet.pcb]) *)

Record PCBMarking : Type := mkPCBMarking {
  ad_id : Z;
  ssf : SupportSignatureField;
  hof : HopOpaqueField;
  spcbf : SupportPCBField
}.

Record PeerMarking : Type := mkPeerMarking {
  pm_ad_id : Z;
  pm_hof : HopOpaqueField;
  pm_spf : SupportPeerField
}.

(** An AD marking: the AD's own [PCBMarking], its peer markings, and the
    signature bytes over the block (empty when unsigned). *)
Record ADMarking : Type := mkADMarking {
  pcbm : PCBMarking;
  pms : list PeerMarking;
  sig : list Z
}.

Record HalfPathBeacon : Type := mkHalfPathBeacon {
  iof : InfoOpaqueField;
  rotf : ROTField;
  ads : list ADMarking
}.

Definition PCBMarking_from_values
  (ad : Z) (s : SupportSignatureField) (h : HopOpaqueField)
  (sp : SupportPCBField) : PCBMarking :=
  mkPCBMarking ad s h sp.

Definition PeerMarking_from_values
  (ad : Z) (h : HopOpaqueField) (sp : SupportPeerField) : PeerMarking :=
  mkPeerMarking ad h sp.

Definition ADMarking_from_values
  (m : PCBMarking) (peer_markings : list PeerMarking) : ADMarking :=
  mkADMarking m peer_markings [].

(** Modelled from the spec: [HalfPathBeacon.add_ad] is missing from the
    sources; the marking sequence is append-only, in traversal order. *)
Definition add_ad (pcb : HalfPathBeacon) (ad_marking : ADMarking)
  : HalfPathBeacon :=
  mkHalfPathBeacon (iof pcb) (rotf pcb) (ads pcb ++ [ad_marking]).

(** Modelled from the spec: [HalfPathBeacon.get_first_ad] is missing from
    the sources; it is the first marking of the sequence, the beacon's
    origin, read through its [PCBMarking] ([.ad_id], [.spcbf.isd_id]), and
    [None] on a beacon without markings. *)
Definition get_first_ad (pcb : HalfPathBeacon) : option PCBMarking :=
  match ads pcb with
  | [] => None
  | ad :: _ => Some (pcbm ad)
  end.

(** Modelled from the spec: [HalfPathBeacon.remove_signatures] is missing
    from the sources; it strips the signature bytes of every marking and
    leaves the path layout as it was. *)
Definition remove_signatures (pcb : HalfPathBeacon) : HalfPathBeacon :=
  mkHalfPathBeacon (iof pcb) (rotf pcb)
    (map (fun ad => mkADMarking (pcbm ad) (pms ad) []) (ads pcb)).

(** ** Topology, configuration ([lib.topology_parser], [lib.config]) *)

Definition HostAddr : Type := Z.

Inductive NeighborType : Type := PARENT | CHILD | PEER | ROUTING.

Inductive ElementType : Type :=
| PATH_SERVER
| OtherElement (tag : nat).

Global Instance ElementType_eq_dec : EqDecision ElementType.
Proof. solve_decision. Defined.

Definition ElementType_encode (e : ElementType) : nat :=
  match e with
  | PATH_SERVER => O
  | OtherElement n => S n
  end.

Definition ElementType_decode (n : nat) : ElementType :=
  match n with
  | O => PATH_SERVER
  | S m => OtherElement m
  end.

Global Instance ElementType_countable : Countable ElementType.
Proof.
  refine (inj_countable' ElementType_encode ElementType_decode _).
  intros []; reflexivity.
Defined.

Record InterfaceElement : Type := mkInterface {
  itf_if_id : Z;
  neighbor_ad : Z
}.

Record RouterElement : Type := mkRouter {
  r_addr : HostAddr;
  interface : InterfaceElement
}.

Record ServerElement : Type := mkServer {
  s_addr : HostAddr
}.

(** [routers] is keyed by the four neighbor categories, [servers] by the
    kinds of server the AD runs (a Python dict: a kind may be absent). *)
Record Topology : Type := mkTopology {
  is_core_ad : bool;
  isd_id : Z;
  topo_ad_id : Z;
  routers : NeighborType -> list RouterElement;
  servers : gmap ElementType ServerElement
}.

Record Config : Type := mkConfig {
  propagation_time : Z;
  registration_time : Z;
  registers_paths : bool
}.

(** ** Path records ([lib.packet.scion]) *)

Inductive PathInfoType : Type := PIT_CORE | PIT_UP | PIT_DOWN.

Record PathInfo : Type := mkPathInfo {
  pi_type : PathInfoType;
  src_isd : Z;
  dst_isd : Z;
  src_ad : Z;
  dst_ad : Z
}.

Definition PathInfo_from_values
  (t : PathInfoType) (sisd disd sad dad : Z) : PathInfo :=
  mkPathInfo t sisd disd sad dad.

(** ** The packet library's interface

    What [beacon_server.py] calls in [lib.packet] without the sources
    saying what it computes. *)
Class PacketLib : Type := mkPacketLib {
  (** a routable path object *)
  CorePath : Type;
  (** [pcb.get_path(reverse_direction=...)] *)
  get_path : HalfPathBeacon -> bool -> CorePath;
  (** [path.get_first_hop_of()] *)
  get_first_hop_of : CorePath -> HopOpaqueField;
  (** [PeerMarking.LEN] *)
  PeerMarking_LEN : Z;
  (** the byte length of a [PCBMarking] without peers *)
  PCBMarking_LEN : Z;
  (** the interface id of [ROTField()] *)
  ROTField_default_if_id : Z
}.

(** Modelled from the spec: the constructor [SupportSignatureField()] is
    missing from the sources; a fresh field's [block_size] is the base
    PCBMarking length. *)
Definition SupportSignatureField_new `{PacketLib} : SupportSignatureField :=
  mkSupportSignatureField PCBMarking_LEN.

(** [peer_marking.LEN]: the class constant, read through an instance. *)
Definition LEN `{PacketLib} (peer_marking : PeerMarking) : Z :=
  PeerMarking_LEN.

(** Modelled from the spec: [ROTField()] is the empty root-of-trust field. *)
Definition ROTField_new `{PacketLib} : ROTField :=
  mkROTField ROTField_default_if_id.

(** ** Python objects and effects *)

(** A reference to a beacon object in the store. *)
Definition ref : Type := nat.

(** Messages as Python objects: they hold references to beacons. *)
Inductive Message `{PacketLib} : Type :=
| Beacon_from_values (dst : HostAddr) (pcb : ref)
| PathRecords_from_values
    (dst : HostAddr) (info : PathInfo) (pcbs : list ref)
    (path : option CorePath).

(** Messages on the wire: [send] packs the objects it is given. *)
Inductive Packet `{PacketLib} : Type :=
| BeaconPacket (dst : HostAddr) (pcb : HalfPathBeacon)
| PathRecordsPacket
    (dst : HostAddr) (info : PathInfo) (pcbs : list HalfPathBeacon)
    (path : option CorePath).

(** The element's fixed attributes ([SCIONElement]). *)
Record SCIONElement : Type := mkSCIONElement {
  addr : HostAddr;
  topology : Topology;
  config : Config;
  ifid2addr : gmap Z HostAddr
}.

(** The mutable part: the two deques, the store of beacon objects, and
    the packets handed to the transport so far, oldest first. *)
Record State `{PacketLib} : Type := mkState {
  beacons : list ref;
  reg_queue : list ref;
  heap : list HalfPathBeacon;
  sent : list (Packet * HostAddr)
}.

Arguments mkState {_} beacons reg_queue heap sent.

(** What a run can raise: Python's [KeyError] (a dict without the key)
    and [AttributeError] (an attribute of [None]); [InvalidRef] is no
    exception of Python but a reference that points outside the store,
    which no run from a state whose queues point into it meets. *)
Inductive PyExc : Type :=
| KeyError
| AttributeError
| InvalidRef.

Inductive Outcome `{PacketLib} (A : Type) : Type :=
| Returned (a : A) (s : State)
| Raised (e : PyExc) (s : State).

Arguments Returned {_ A} a s.
Arguments Raised {_ A} e s.

Definition Exec `{PacketLib} (A : Type) : Type := State -> Outcome A.

Definition ret `{PacketLib} {A : Type} (a : A) : Exec A :=
  fun s => Returned a s.

Definition bind `{PacketLib} {A B : Type} (m : Exec A) (k : A -> Exec B)
  : Exec B :=
  fun s => match m s with
           | Returned a s' => k a s'
           | Raised e s' => Raised e s'
           end.

Definition raise `{PacketLib} {A : Type} (e : PyExc) : Exec A :=
  fun s => Raised e s.

Declare Scope exec_scope.
Delimit Scope exec_scope with exec.
Notation "'do' x <- m ; k" := (bind m (fun x => k))
  (at level 10, x name, m at level 100, k at level 200) : exec_scope.
Notation "m ;> k" := (bind m (fun _ => k))
  (at level 100, k at level 200, right associativity) : exec_scope.
Local Open Scope exec_scope.

Definition final_state `{PacketLib} {A : Type} (o : Outcome A) : State :=
  match o with
  | Returned _ s => s
  | Raised _ s => s
  end.

(** The primitive effects. *)

Definition deref `{PacketLib} (r : ref) : Exec HalfPathBeacon :=
  fun s => match heap s !! r with
           | Some v => Returned v s
           | None => Raised InvalidRef s
           end.

Definition assign `{PacketLib} (r : ref) (v : HalfPathBeacon) : Exec unit :=
  fun s => Returned tt
             (mkState (beacons s) (reg_queue s) (<[r := v]> (heap s)) (sent s)).

Definition alloc `{PacketLib} (v : HalfPathBeacon) : Exec ref :=
  fun s => Returned (length (heap s))
             (mkState (beacons s) (reg_queue s) (heap s ++ [v]) (sent s)).

(** [copy.deepcopy(pcb)]: a new object with the same contents. *)
Definition deepcopy `{PacketLib} (r : ref) : Exec ref :=
  do v <- deref r; alloc v.

(** packing a message reads the beacons it refers to *)
Definition pack `{PacketLib} (m : Message) : Exec Packet :=
  match m with
  | Beacon_from_values dst pcb =>
      do v <- deref pcb; ret (BeaconPacket dst v)
  | PathRecords_from_values dst info pcbs path =>
      fun s => match mapM (fun r => heap s !! r) pcbs with
               | Some vs => Returned (PathRecordsPacket dst info vs path) s
               | None => Raised InvalidRef s
               end
  end.

(** Modelled from the spec: [SCIONElement.send] is missing from the
    sources; the transport takes a message and an address, best effort:
    the packet is packed when [send] is called and nothing comes back. *)
Definition send `{PacketLib} (m : Message) (dst : HostAddr) : Exec unit :=
  do p <- pack m;
  fun s => Returned tt
             (mkState (beacons s) (reg_queue s) (heap s) (sent s ++ [(p, dst)])).

(** Field updates of a beacon object, in place. *)

(** [pcb.rotf.if_id = v] *)
Definition set_rotf_if_id `{PacketLib} (pcb : ref) (v : Z) : Exec unit :=
  do p <- deref pcb;
  assign pcb (mkHalfPathBeacon (iof p) (mkROTField v) (ads p)).

(** [pcb.add_ad(ad_marking)] *)
Definition obj_add_ad `{PacketLib} (pcb : ref) (ad_marking : ADMarking)
  : Exec unit :=
  do p <- deref pcb; assign pcb (add_ad p ad_marking).

(** [pcb.remove_signatures()] *)
Definition obj_remove_signatures `{PacketLib} (pcb : ref) : Exec unit :=
  do p <- deref pcb; assign pcb (remove_signatures p).

(** [pcb.get_first_ad()], ready for an attribute access: on [None] the
    access raises [AttributeError]. *)
Definition obj_get_first_ad `{PacketLib} (pcb : ref) : Exec PCBMarking :=
  do p <- deref pcb;
  match get_first_ad p with
  | Some m => ret m
  | None => raise AttributeError
  end.

(** The two deques. *)

Definition beacons_popleft `{PacketLib} : Exec (option ref) :=
  fun s => match beacons s with
           | [] => Returned None s
           | r :: q => Returned (Some r)
                         (mkState q (reg_queue s) (heap s) (sent s))
           end.

Definition beacons_append `{PacketLib} (r : ref) : Exec unit :=
  fun s => Returned tt
             (mkState (beacons s ++ [r]) (reg_queue s) (heap s) (sent s)).

Definition reg_queue_popleft `{PacketLib} : Exec (option ref) :=
  fun s => match reg_queue s with
           | [] => Returned None s
           | r :: q => Returned (Some r)
                         (mkState (beacons s) q (heap s) (sent s))
           end.

Definition reg_queue_append `{PacketLib} (r : ref) : Exec unit :=
  fun s => Returned tt
             (mkState (beacons s) (reg_queue s ++ [r]) (heap s) (sent s)).

(** [while queue: x = queue.popleft(); body(x)], at most [fuel] times. *)
Fixpoint while_popleft `{PacketLib} (fuel : nat)
  (popleft : Exec (option ref)) (body : ref -> Exec unit) : Exec unit :=
  match fuel with
  | O => ret tt
  | S fuel' =>
      do o <- popleft;
      match o with
      | None => ret tt
      | Some x => body x ;> while_popleft fuel' popleft body
      end
  end.

(** [while True: round; time.sleep(...)], cut after [n] rounds. *)
Fixpoint rounds `{PacketLib} (n : nat) (round : Exec unit) : Exec unit :=
  match n with
  | O => ret tt
  | S n' => round ;> rounds n' round
  end.

(** Python 3's [a / b] on integers, for [b <> 0]: the quotient as a float.
    Every use below divides a number under 2^18 by 4, where the float is
    the exact quotient. *)
Definition truediv (a b : Z) : Q := (inject_Z a / inject_Z b)%Q.

(** ** [class BeaconServer] *)
Module BeaconServer.

Definition DELTA : Z := 24 * 60 * 60.
Definition TIME_INTERVAL : Z := 4.
Definition BEACONS_NO : Z := 5.

(** The [for router_peer in ...] loop of [_create_ad_marking], on the
    marking under construction and the list of peer markings so far. *)
Fixpoint peer_markings_loop `{PacketLib} (self : SCIONElement)
  (egress_if : Z) (peers : list RouterElement)
  (pcbm : PCBMarking) (peer_markings : list PeerMarking)
  : PCBMarking * list PeerMarking :=
  match peers with
  | [] => (pcbm, peer_markings)
  | router_peer :: rest =>
      let peer_marking :=
        PeerMarking_from_values (neighbor_ad (interface router_peer))
          (HopOpaqueField_from_values
             (itf_if_id (interface router_peer)) egress_if)
          (SupportPeerField_from_values (isd_id (topology self))) in
      let pcbm :=
        mkPCBMarking (ad_id pcbm)
          (mkSupportSignatureField
             (block_size (ssf pcbm) + LEN peer_marking))
          (hof pcbm) (spcbf pcbm) in
      peer_markings_loop self egress_if rest pcbm
        (peer_markings ++ [peer_marking])
  end.

Definition _create_ad_marking `{PacketLib} (self : SCIONElement)
  (ingress_if egress_if : Z) : ADMarking :=
  let ssf := SupportSignatureField_new in
  let hof := HopOpaqueField_from_values ingress_if egress_if in
  let spcbf := SupportPCBField_from_values (isd_id (topology self)) in
  let pcbm :=
    PCBMarking_from_values (topo_ad_id (topology self)) ssf hof spcbf in
  let '(pcbm, peer_markings) :=
    peer_markings_loop self egress_if (routers (topology self) PEER) pcbm []
  in
  ADMarking_from_values pcbm peer_markings.

(** The body shared, word for word, by [propagate_downstream_pcb] and
    [propagate_core_pcb]: the loop over the routers of one category. *)
Fixpoint propagate_loop `{PacketLib} (self : SCIONElement) (pcb : ref)
  (ingress_if : Z) (neighbors : list RouterElement) : Exec unit :=
  match neighbors with
  | [] => ret tt
  | router :: rest =>
      do new_pcb <- deepcopy pcb;
      let egress_if := itf_if_id (interface router) in
      (set_rotf_if_id new_pcb egress_if ;>
       let ad_marking := _create_ad_marking self ingress_if egress_if in
       (obj_add_ad new_pcb ad_marking ;>
        let beacon := Beacon_from_values (r_addr router) new_pcb in
        (send beacon (r_addr router) ;>
         propagate_loop self pcb ingress_if rest)))
  end.

Definition propagate_downstream_pcb `{PacketLib} (self : SCIONElement)
  (pcb : ref) : Exec unit :=
  do p <- deref pcb;
  let ingress_if := if_id (rotf p) in
  propagate_loop self pcb ingress_if (routers (topology self) CHILD).

(** One round of the [while True] loop of [handle_pcbs_propagation]
    (what runs between two sleeps). *)
Definition handle_pcbs_propagation_round `{PacketLib} (self : SCIONElement)
  : Exec unit :=
  fun s =>
    while_popleft (length (beacons s)) beacons_popleft
      (fun pcb => propagate_downstream_pcb self pcb ;> reg_queue_append pcb) s.

(** [beacon.pcb] is the beacon object parsed from the packet. *)
Definition process_pcb `{PacketLib} (self : SCIONElement) (beacon_pcb : ref)
  : Exec unit :=
  beacons_append beacon_pcb.

Definition register_paths `{PacketLib} (self : SCIONElement) : Exec unit :=
  ret tt.

End BeaconServer.

(** ** [class CoreBeaconServer(BeaconServer)] *)
Module CoreBeaconServer.
Import BeaconServer.

Definition propagate_core_pcb `{PacketLib} (self : SCIONElement)
  (pcb : ref) : Exec unit :=
  do p <- deref pcb;
  let ingress_if := if_id (rotf p) in
  propagate_loop self pcb ingress_if (routers (topology self) ROUTING).

(** The timestamp of the beacons originated at time [now], where [now] is
    [int(time.time())]. *)
Definition timestamp (now : Z) : Q :=
  truediv ((now + DELTA) mod (TIME_INTERVAL * 2 ^ 16)) TIME_INTERVAL.

(** [pcb = HalfPathBeacon(); pcb.iof = ...; pcb.rotf = ROTField()]: a new
    beacon object without markings. *)
Definition originate `{PacketLib} (self : SCIONElement) (ts : Q) : Exec ref :=
  alloc (mkHalfPathBeacon
           (InfoOpaqueField_from_values TDC_XOVR ts (isd_id (topology self)))
           ROTField_new
           []).

(** One round of the [while True] loop of [handle_pcbs_propagation],
    started when the clock reads [now]. *)
Definition handle_pcbs_propagation_round `{PacketLib} (self : SCIONElement)
  (now : Z) : Exec unit :=
  let timestamp := timestamp now in
  do downstream_pcb <- originate self timestamp;
  (propagate_downstream_pcb self downstream_pcb ;>
   do core_pcb <- originate self timestamp;
   (propagate_core_pcb self core_pcb ;>
    fun s =>
      while_popleft (length (beacons s)) beacons_popleft
        (fun pcb => propagate_core_pcb self pcb ;> reg_queue_append pcb) s)).

Definition register_core_path `{PacketLib} (self : SCIONElement) (pcb : ref)
  : Exec unit :=
  do first_ad <- obj_get_first_ad pcb;
  let info :=
    PathInfo_from_values PIT_CORE
      (spcbf_isd_id (spcbf first_ad)) (isd_id (topology self))
      (ad_id first_ad) (topo_ad_id (topology self)) in
  (match servers (topology self) !! PATH_SERVER with
   | Some ps =>
       let dst := s_addr ps in
       let path_rec := PathRecords_from_values dst info [pcb] None in
       send path_rec dst
   | None => ret tt
   end ;>
   (obj_remove_signatures pcb ;>
    do p <- deref pcb;
    let path := get_path p true in
    let path_rec :=
      PathRecords_from_values (addr self) info [pcb] (Some path) in
    let if_id := ingress_if (get_first_hop_of path) in
    match ifid2addr self !! if_id with
    | Some next_hop => send path_rec next_hop
    | None => raise KeyError
    end)).

(** The body of the inner loop of [register_paths], for one queued beacon. *)
Definition register_one `{PacketLib} (self : SCIONElement) (pcb : ref)
  : Exec unit :=
  do new_pcb <- deepcopy pcb;
  do p <- deref new_pcb;
  let ad_marking := _create_ad_marking self (if_id (rotf p)) 0 in
  (obj_add_ad new_pcb ad_marking ;>
   register_core_path self new_pcb).

(** One round of the [while True] loop of [register_paths]. *)
Definition register_paths_round `{PacketLib} (self : SCIONElement)
  : Exec unit :=
  fun s =>
    while_popleft (length (reg_queue s)) reg_queue_popleft
      (register_one self) s.

(** [register_paths], cut after [n] rounds of its endless loop. *)
Definition register_paths `{PacketLib} (self : SCIONElement) (n : nat)
  : Exec unit :=
  if negb (registers_paths (config self)) then ret tt
  else rounds n (register_paths_round self).

(** The scan of [process_pcb]: [true] when some marking carries the
    server's own ISD and AD, and the beacon is dropped. *)
Fixpoint already_seen (self : SCIONElement) (ads : list ADMarking) : bool :=
  match ads with
  | [] => false
  | ad :: rest =>
      let isd_id' := spcbf_isd_id (spcbf (pcbm ad)) in
      let ad_id' := ad_id (pcbm ad) in
      if (isd_id' =? isd_id (topology self)) &&
         (ad_id' =? topo_ad_id (topology self))
      then true
      else already_seen self rest
  end.

Definition process_pcb `{PacketLib} (self : SCIONElement) (beacon_pcb : ref)
  : Exec unit :=
  let pcb := beacon_pcb in
  do p <- deref pcb;
  if already_seen self (ads p) then ret tt
  else beacons_append pcb.

End CoreBeaconServer.

(** ** [class LocalBeaconServer(BeaconServer)] *)
Module LocalBeaconServer.
Import BeaconServer.

Definition register_up_path `{PacketLib} (self : SCIONElement) (pcb : ref)
  : Exec unit :=
  do first_ad <- obj_get_first_ad pcb;
  let info :=
    PathInfo_from_values PIT_UP
      (isd_id (topology self)) (isd_id (topology self))
      (ad_id first_ad) (topo_ad_id (topology self)) in
  match servers (topology self) !! PATH_SERVER with
  | Some ps =>
      let dst := s_addr ps in
      let up_path := PathRecords_from_values dst info [pcb] None in
      send up_path dst
  | None => raise KeyError
  end.

Definition register_down_path `{PacketLib} (self : SCIONElement) (pcb : ref)
  : Exec unit :=
  obj_remove_signatures pcb ;>
  do first_ad <- obj_get_first_ad pcb;
  let info :=
    PathInfo_from_values PIT_DOWN
      (isd_id (topology self)) (isd_id (topology self))
      (ad_id first_ad) (topo_ad_id (topology self)) in
  do p <- deref pcb;
  let core_path := get_path p true in
  let down_path :=
    PathRecords_from_values (addr self) info [pcb] (Some core_path) in
  let if_id := ingress_if (get_first_hop_of core_path) in
  match ifid2addr self !! if_id with
  | Some next_hop => send down_path next_hop
  | None => raise KeyError
  end.

(** The body of the inner loop of [register_paths], for one queued beacon. *)
Definition register_one `{PacketLib} (self : SCIONElement) (pcb : ref)
  : Exec unit :=
  do new_pcb <- deepcopy pcb;
  do p <- deref new_pcb;
  let ad_marking := _create_ad_marking self (if_id (rotf p)) 0 in
  (obj_add_ad new_pcb ad_marking ;>
   (register_up_path self new_pcb ;>
    register_down_path self new_pcb)).

(** One round of the [while True] loop of [register_paths]. *)
Definition register_paths_round `{PacketLib} (self : SCIONElement)
  : Exec unit :=
  fun s =>
    while_popleft (length (reg_queue s)) reg_queue_popleft
      (register_one self) s.

(** [register_paths], cut after [n] rounds of its endless loop. *)
Definition register_paths `{PacketLib} (self : SCIONElement) (n : nat)
  : Exec unit :=
  if negb (registers_paths (config self)) then ret tt
  else rounds n (register_paths_round self).

End LocalBeaconServer.

(** ** Dispatch *)

(** [PacketType]: the three tags [handle_request] names, and any other. *)
Inductive PacketType : Type :=
| IFID_REQ
| IFID_REP
| BEACON
| PT_code (code : Z).

(** The class a server object is an instance of: it decides which
    [process_pcb], [handle_pcbs_propagation] and [register_paths] a call
    on [self] reaches. *)
Inductive Role : Type := Core | Local.

Definition process_pcb `{PacketLib} (role : Role) (self : SCIONElement)
  (beacon_pcb : ref) : Exec unit :=
  match role with
  | Core => CoreBeaconServer.process_pcb self beacon_pcb
  | Local => BeaconServer.process_pcb self beacon_pcb
  end.

(** [handle_request(packet, sender)]: the packet is given by the tag
    [get_type] reads off it and by the beacon [Beacon(packet)] parses it
    to, a new object; the warnings logged for the other tags leave no
    trace in the state. *)
Definition handle_request `{PacketLib} (role : Role) (self : SCIONElement)
  (ptype : PacketType) (parsed : HalfPathBeacon) : Exec unit :=
  match ptype with
  | IFID_REQ => ret tt
  | IFID_REP => ret tt
  | BEACON => do beacon_pcb <- alloc parsed; process_pcb role self beacon_pcb
  | PT_code _ => ret tt
  end.

(** [BeaconServer.__init__]: both deques empty; nothing stored, nothing
    sent. *)
Definition initial_state `{PacketLib} : State := mkState [] [] [] [].

(** [process_pcb] on each beacon of [arrivals], in turn. *)
Fixpoint accept_all `{PacketLib} (role : Role) (self : SCIONElement)
  (arrivals : list ref) : Exec unit :=
  match arrivals with
  | [] => ret tt
  | beacon_pcb :: rest =>
      process_pcb role self beacon_pcb ;> accept_all role self rest
  end.

(** One round of the role's propagation loop, with the clock reading
    [now] (a leaf server does not read the clock). *)
Definition propagation_round `{PacketLib} (role : Role) (self : SCIONElement)
  (now : Z) : Exec unit :=
  match role with
  | Core => CoreBeaconServer.handle_pcbs_propagation_round self now
  | Local => BeaconServer.handle_pcbs_propagation_round self
  end.

(** The role's [register_paths], cut after [n] rounds. *)
Definition register_paths `{PacketLib} (role : Role) (self : SCIONElement)
  (n : nat) : Exec unit :=
  match role with
  | Core => CoreBeaconServer.register_paths self n
  | Local => LocalBeaconServer.register_paths self n
  end.

(** What the three threads of [run] do to the state, one whole call at a
    time: a packet is handled, a propagation round runs, or
    [register_paths] runs some rounds, to its return or to the exception
    that ends it. *)
Inductive server_step `{PacketLib} (role : Role) (self : SCIONElement)
  : State -> State -> Prop :=
| step_receive (s : State) (ptype : PacketType) (parsed : HalfPathBeacon) :
    server_step role self s
      (final_state (handle_request role self ptype parsed s))
| step_propagate (s : State) (now : Z) :
    server_step role self s
      (final_state (propagation_round role self now s))
| step_register (s : State) (n : nat) :
    server_step role self s
      (final_state (register_paths role self n s)).

(** The states a server gets to from its start. *)
Inductive reachable `{PacketLib} (role : Role) (self : SCIONElement)
  : State -> Prop :=
| reachable_start : reachable role self initial_state
| reachable_step (s s' : State) :
    reachable role self s -> server_step role self s s' ->
    reachable role self s'.

(** ** A packet library to run the server on

    Modelled from the spec: [get_path] and [get_first_hop_of] are missing
    from the sources; the routable path implied by a marking sequence is
    taken to be its hop fields, last marking first in the reverse
    direction, and the lengths are 8 bytes a field. *)
Definition hops_of (pcb : HalfPathBeacon) (reverse_direction : bool)
  : list HopOpaqueField :=
  let hofs := map (fun ad => hof (pcbm ad)) (ads pcb) in
  if reverse_direction then rev hofs else hofs.

Definition first_hop_of (path : list HopOpaqueField) : HopOpaqueField :=
  match path with
  | [] => mkHopOpaqueField 0 0
  | h :: _ => h
  end.

Definition HopListLib : PacketLib :=
  mkPacketLib (list HopOpaqueField) hops_of first_hop_of 24 32 0.

(** ** Two servers and a store to run them on

    ISD 1: the core AD 5, with a child router, two core routers and a peer
    router, and the leaf AD 9 below it. *)

Definition example_routers (category : NeighborType) : list RouterElement :=
  match category with
  | PARENT => []
  | CHILD => [mkRouter 101 (mkInterface 11 9)]
  | PEER => [mkRouter 104 (mkInterface 14 6)]
  | ROUTING => [mkRouter 102 (mkInterface 12 7); mkRouter 103 (mkInterface 13 8)]
  end.

(** A core server whose topology has no path server and whose
    interface table is empty. *)
Definition example_core_bare : SCIONElement :=
  mkSCIONElement 50
    (mkTopology true 1 5 example_routers ∅)
    (mkConfig 5 5 true)
    ∅.

(** The same core server with a path server and a full interface table. *)
Definition example_core : SCIONElement :=
  mkSCIONElement 50
    (mkTopology true 1 5 example_routers {[ PATH_SERVER := mkServer 200 ]})
    (mkConfig 5 5 true)
    {[ 11 := 101; 12 := 102; 13 := 103; 14 := 104 ]}.

(** A leaf server with a path server; its interface 3 leads to its parent. *)
Definition example_leaf : SCIONElement :=
  mkSCIONElement 90
    (mkTopology false 1 9
       (fun category => match category with
                        | PARENT => [mkRouter 301 (mkInterface 3 5)]
                        | CHILD => [mkRouter 302 (mkInterface 4 10)]
                        | _ => []
                        end)
       {[ PATH_SERVER := mkServer 900 ]})
    (mkConfig 5 5 true)
    {[ 3 := 301; 4 := 302 ]}.

(** The same leaf server with an empty interface table. *)
Definition example_leaf_bare : SCIONElement :=
  mkSCIONElement 90
    (topology example_leaf) (mkConfig 5 5 true) ∅.

(** A signed marking of AD [ad] of ISD [isd], without peers. *)
Definition example_marking (isd ad ingress egress : Z) : ADMarking :=
  mkADMarking
    (mkPCBMarking ad (mkSupportSignatureField 32)
       (mkHopOpaqueField ingress egress) (mkSupportPCBField isd))
    [] [170; 187].

(** A beacon that left AD 7 and arrived on interface 12 (core) or 3
    (leaf), as its ROTField says. *)
Definition example_beacon (arrived_on : Z) : HalfPathBeacon :=
  mkHalfPathBeacon (mkInfoOpaqueField TDC_XOVR 21600 1)
    (mkROTField arrived_on)
    [example_marking 1 7 0 2].

(** A beacon that went through ADs 3, 5 and 7 of ISD 1. *)
Definition example_looped_beacon : HalfPathBeacon :=
  mkHalfPathBeacon (mkInfoOpaqueField TDC_XOVR 21600 1)
    (mkROTField 12)
    [example_marking 1 3 0 2; example_marking 1 5 1 2; example_marking 1 7 1 2].

(** A beacon of AD 7 that names AD 5 of ISD 1 as a peer only. *)
Definition example_peered_beacon : HalfPathBeacon :=
  mkHalfPathBeacon (mkInfoOpaqueField TDC_XOVR 21600 1)
    (mkROTField 12)
    [mkADMarking
       (mkPCBMarking 7 (mkSupportSignatureField 56)
          (mkHopOpaqueField 0 2) (mkSupportPCBField 1))
       [mkPeerMarking 5 (mkHopOpaqueField 4 2) (mkSupportPeerField 1)]
       [170; 187]].

(** Two beacons in the store of a core server, both queued for
    propagation and for registration. *)
Definition example_core_state : @State HopListLib :=
  @mkState HopListLib [0%nat; 1%nat] [0%nat; 1%nat]
    [example_beacon 12; example_beacon 13] [].

(** The same for a leaf server. *)
Definition example_leaf_state : @State HopListLib :=
  @mkState HopListLib [0%nat; 1%nat] [0%nat; 1%nat]
    [example_beacon 3; example_beacon 3] [].

(** Received beacons in a core server's store, none queued yet. *)
Definition example_inbound_state : @State HopListLib :=
  @mkState HopListLib [] []
    [example_looped_beacon; example_peered_beacon; example_beacon 12] [].

(** The leaf server without a path server, and with path registration
    switched off. *)
Definition example_leaf_without_ps : SCIONElement :=
  mkSCIONElement 90
    (mkTopology false 1 9 (routers (topology example_leaf)) ∅)
    (mkConfig 5 5 true)
    (ifid2addr example_leaf).

Definition example_leaf_quiet : SCIONElement :=
  mkSCIONElement 90
    (topology example_leaf) (mkConfig 5 5 false) (ifid2addr example_leaf).

(** The quiet leaf server after a beacon, a propagation round and a call
    of [register_paths]. *)
Definition example_reached_quiet : @State HopListLib :=
  final_state
    (@register_paths HopListLib Local example_leaf_quiet 1
       (final_state
          (@propagation_round HopListLib Local example_leaf_quiet 1420070401
             (final_state
                (@handle_request HopListLib Local example_leaf_quiet BEACON
                   (example_beacon 3) initial_state))))).

(** Three beacons awaiting registration; the second arrived on interface
    77, which no interface table of the examples has. *)
Definition example_blocked_state (arrived_on : Z) : @State HopListLib :=
  @mkState HopListLib [] [0%nat; 1%nat; 2%nat]
    [example_beacon arrived_on; example_beacon 77; example_beacon arrived_on]
    [].

(** A core server that received a beacon and ran a propagation round,
    and a leaf server that did the same and then registered. *)
Definition example_reached_core : @State HopListLib :=
  final_state
    (@propagation_round HopListLib Core example_core 1420070401
       (final_state
          (@handle_request HopListLib Core example_core BEACON
             (example_beacon 12) initial_state))).

Definition example_reached_leaf : @State HopListLib :=
  final_state
    (@register_paths HopListLib Local example_leaf 1
       (final_state
          (@propagation_round HopListLib Local example_leaf 1420070401
             (final_state
                (@handle_request HopListLib Local example_leaf BEACON
                   (example_beacon 3) initial_state))))).

(** ** What the properties are stated with *)

Definition is_integer (q : Q) : Prop := exists z : Z, (q == inject_Z z)%Q.

(** A marking carries the server's own identity in its [PCBMarking]. *)
Definition own_marking (self : SCIONElement) (m : ADMarking) : Prop :=
  spcbf_isd_id (spcbf (pcbm m)) = isd_id (topology self) /\
  ad_id (pcbm m) = topo_ad_id (topology self).

(** The state after [pcb] joined the inbound queue. *)
Definition enqueued `{PacketLib} (pcb : ref) (s : State) : State :=
  mkState (beacons s ++ [pcb]) (reg_queue s) (heap s) (sent s).

(** The sum of the lengths of a list of peer markings. *)
Definition peer_markings_length `{PacketLib} (l : list PeerMarking) : Z :=
  foldr Z.add 0 (map LEN l).

(** ** What the propagation properties are stated with *)

Section Vocabulary.
Context `{PacketLib} (self : SCIONElement).
Import BeaconServer.

(** The peer marking built for one peering router. *)
Definition peer_marking_for (egress_if : Z) (router_peer : RouterElement)
  : PeerMarking :=
  PeerMarking_from_values (neighbor_ad (interface router_peer))
    (HopOpaqueField_from_values (itf_if_id (interface router_peer)) egress_if)
    (SupportPeerField_from_values (isd_id (topology self))).

(** The beacon a neighbor is sent: the contents [p] of the propagated
    beacon, its ROTField set to the neighbor's interface, and one more
    marking, from [ingress_if] to that interface. *)
Definition augmented (ingress_if : Z) (p : HalfPathBeacon)
  (router : RouterElement) : HalfPathBeacon :=
  let egress_if := itf_if_id (interface router) in
  add_ad (mkHalfPathBeacon (iof p) (mkROTField egress_if) (ads p))
    (_create_ad_marking self ingress_if egress_if).

Definition beacon_for (ingress_if : Z) (p : HalfPathBeacon)
  (router : RouterElement) : Packet * HostAddr :=
  (BeaconPacket (r_addr router) (augmented ingress_if p router),
   r_addr router).

(** The state after a fan-out of [p] over [neighbors]: the copies are new
    objects at the end of the store, the packets follow those sent before. *)
Definition fanned_out (ingress_if : Z) (p : HalfPathBeacon)
  (neighbors : list RouterElement) (s : State) : State :=
  mkState (beacons s) (reg_queue s)
    (heap s ++ map (augmented ingress_if p) neighbors)
    (sent s ++ map (beacon_for ingress_if p) neighbors).

(** What a fan-out of the beacon object [pcb], of contents [p], over the
    [neighbors] made of the state [s], as seen in the outcome [o]: it
    returned; no object of [s] changed, [pcb] among them; the queues are as
    they were; there is one new object and one packet per neighbor, in
    order, and the [i]-th new object, which the [i]-th packet carries to
    the [i]-th neighbor, is [p] with the ROTField set to that neighbor's
    interface and one marking appended. *)
Definition fan_out_of (pcb : ref) (p : HalfPathBeacon)
  (neighbors : list RouterElement) (s : State) (o : Outcome unit) : Prop :=
  exists s' : State,
    o = Returned tt s' /\
    (forall r v, heap s !! r = Some v -> heap s' !! r = Some v) /\
    heap s' !! pcb = Some p /\
    beacons s' = beacons s /\ reg_queue s' = reg_queue s /\
    length (heap s') = (length (heap s) + length neighbors)%nat /\
    length (sent s') = (length (sent s) + length neighbors)%nat /\
    (forall r pkt, sent s !! r = Some pkt -> sent s' !! r = Some pkt) /\
    forall (i : nat) (router : RouterElement),
      neighbors !! i = Some router ->
      exists (q : HalfPathBeacon) (m : ADMarking),
        heap s' !! (length (heap s) + i)%nat = Some q /\
        sent s' !! (length (sent s) + i)%nat =
          Some (BeaconPacket (r_addr router) q, r_addr router) /\
        iof q = iof p /\
        rotf q = mkROTField (itf_if_id (interface router)) /\
        ads q = ads p ++ [m] /\
        m = _create_ad_marking self (if_id (rotf p))
              (itf_if_id (interface router)) /\
        hof (pcbm m) =
          mkHopOpaqueField (if_id (rotf p)) (itf_if_id (interface router)).

(** All the references of a queue point into the store. *)
Definition queue_ok (h : list HalfPathBeacon) (q : list ref) : Prop :=
  Forall (fun r => is_Some (h !! r)) q.

(** The copies made, and the packets sent, when the beacons of the queue
    [q], read in the store [h], are each fanned out over [neighbors]. *)
Definition forwarded_objects (neighbors : list RouterElement)
  (h : list HalfPathBeacon) (q : list ref) : list HalfPathBeacon :=
  concat (map (fun r => match h !! r with
                        | Some p => map (augmented (if_id (rotf p)) p)
                                      neighbors
                        | None => []
                        end) q).

Definition forwarded_packets (neighbors : list RouterElement)
  (h : list HalfPathBeacon) (q : list ref) : list (Packet * HostAddr) :=
  concat (map (fun r => match h !! r with
                        | Some p => map (beacon_for (if_id (rotf p)) p)
                                      neighbors
                        | None => []
                        end) q).

(** The state a drain of the inbound queue ends in. *)
Definition drained (neighbors : list RouterElement) (s : State) : State :=
  mkState [] (reg_queue s ++ beacons s)
    (heap s ++ forwarded_objects neighbors (heap s) (beacons s))
    (sent s ++ forwarded_packets neighbors (heap s) (beacons s)).

(** The beacon a core server originates when the clock reads [now]. *)
Definition fresh_pcb (now : Z) : HalfPathBeacon :=
  mkHalfPathBeacon
    (InfoOpaqueField_from_values TDC_XOVR (CoreBeaconServer.timestamp now)
       (isd_id (topology self)))
    ROTField_new [].

(** The packets a fresh beacon is sent in to the [neighbors]. *)
Definition origination (now : Z) (neighbors : list RouterElement)
  : list (Packet * HostAddr) :=
  map (beacon_for (if_id ROTField_new) (fresh_pcb now)) neighbors.

(** The state a round of a core server's propagation loop ends in. *)
Definition core_round_state (now : Z) (s : State) : State :=
  let child := routers (topology self) CHILD in
  let routing := routers (topology self) ROUTING in
  mkState [] (reg_queue s ++ beacons s)
    (heap s
       ++ fresh_pcb now
          :: map (augmented (if_id ROTField_new) (fresh_pcb now)) child
       ++ fresh_pcb now
          :: map (augmented (if_id ROTField_new) (fresh_pcb now)) routing
       ++ forwarded_objects routing (heap s) (beacons s))
    (sent s
       ++ origination now child
       ++ origination now routing
       ++ forwarded_packets routing (heap s) (beacons s)).

(** The timestamp a packet's beacon carries in its info field. *)
Definition packet_timestamp (x : Packet * HostAddr) : option Q :=
  match fst x with
  | BeaconPacket _ q => Some (iof_timestamp (iof q))
  | PathRecordsPacket _ _ _ _ => None
  end.

End Vocabulary.

(** ** What the registration properties are stated with *)

Section RegistrationVocabulary.
Context `{PacketLib}.
Import BeaconServer.

(** The beacon registered for a queued beacon of contents [p]: [p] and
    the marking that ends the path at this AD (egress interface 0). *)
Definition terminated (self : SCIONElement) (p : HalfPathBeacon)
  : HalfPathBeacon :=
  add_ad p (_create_ad_marking self (if_id (rotf p)) 0).

(** The first marking of the registered beacon: the first marking of [p],
    or the server's own when [p] has none. *)
Definition origin_marking (self : SCIONElement) (p : HalfPathBeacon)
  : PCBMarking :=
  match ads p with
  | [] => pcbm (_create_ad_marking self (if_id (rotf p)) 0)
  | ad :: _ => pcbm ad
  end.

(** The interface the reversed path of [q] starts at. *)
Definition reverse_first_hop (q : HalfPathBeacon) : Z :=
  ingress_if (get_first_hop_of (get_path q true)).

Definition core_info (self : SCIONElement) (p : HalfPathBeacon) : PathInfo :=
  mkPathInfo PIT_CORE
    (spcbf_isd_id (spcbf (origin_marking self p))) (isd_id (topology self))
    (ad_id (origin_marking self p)) (topo_ad_id (topology self)).

Definition leaf_info (self : SCIONElement) (kind : PathInfoType)
  (p : HalfPathBeacon) : PathInfo :=
  mkPathInfo kind
    (isd_id (topology self)) (isd_id (topology self))
    (ad_id (origin_marking self p)) (topo_ad_id (topology self)).

(** The record for the local path server, carrying [q] as it is. *)
Definition local_record (ps : ServerElement) (info : PathInfo)
  (q : HalfPathBeacon) : Packet * HostAddr :=
  (PathRecordsPacket (s_addr ps) info [q] None, s_addr ps).

(** What a core server sends its local path server: one record, or
    nothing when the topology has no path server. *)
Definition local_registration (self : SCIONElement) (info : PathInfo)
  (q : HalfPathBeacon) : list (Packet * HostAddr) :=
  match servers (topology self) !! PATH_SERVER with
  | Some ps => [local_record ps info q]
  | None => []
  end.

(** The record sent towards the origin: it carries [q] and the reversed
    path of [q], and goes to [next_hop]. *)
Definition origin_record (self : SCIONElement) (info : PathInfo)
  (q : HalfPathBeacon) (next_hop : HostAddr) : Packet * HostAddr :=
  (PathRecordsPacket (addr self) info [q] (Some (get_path q true)), next_hop).

(** The state after the registration of one beacon: the queues as they
    were, one new object [q], and the packets [sent_now] sent. *)
Definition registered (s : State) (q : HalfPathBeacon)
  (sent_now : list (Packet * HostAddr)) : State :=
  mkState (beacons s) (reg_queue s) (heap s ++ [q]) (sent s ++ sent_now).

(** The store [h'] is the store [h] and new objects after it. *)
Definition store_extends (h h' : list HalfPathBeacon) : Prop :=
  exists ext : list HalfPathBeacon, h' = h ++ ext.

(** A computation that, returning or raising, leaves every object of the
    store it started from as it was. *)
Definition preserves_store {A : Type} (m : Exec A) : Prop :=
  forall s : State, store_extends (heap s) (heap (final_state (m s))).

End RegistrationVocabulary.

(** ** What the further properties are stated with *)

Section FurtherVocabulary.
Context `{PacketLib} (self : SCIONElement).

(** The test of a core server's [process_pcb] on a stored beacon. *)
Definition unseen (h : list HalfPathBeacon) (r : ref) : bool :=
  match h !! r with
  | Some p => negb (CoreBeaconServer.already_seen self (ads p))
  | None => false
  end.

(** The arrivals a core server lets into its inbound queue. *)
Definition accepted (h : list HalfPathBeacon) (arrivals : list ref)
  : list ref :=
  List.filter (unseen h) arrivals.

(** A beacon went through this AD once, and last: its final marking is
    the server's own and no earlier one is. *)
Definition visits_once (q : HalfPathBeacon) : Prop :=
  exists (pre : list ADMarking) (m : ADMarking),
    ads q = pre ++ [m] /\ own_marking self m /\
    Forall (fun m' => ~ own_marking self m') pre.

(** A packet is a beacon for the router [router], addressed to it. *)
Definition beacon_to (router : RouterElement) (x : Packet * HostAddr)
  : Prop :=
  exists q : HalfPathBeacon,
    x = (BeaconPacket (r_addr router) q, r_addr router) /\
    rotf q = mkROTField (itf_if_id (interface router)).

(** A packet is a beacon for one of the [neighbors]. *)
Definition beacon_to_one_of (neighbors : list RouterElement)
  (x : Packet * HostAddr) : Prop :=
  exists router : RouterElement, In router neighbors /\ beacon_to router x.

(** The beacon a packet carries, if it is a beacon packet. *)
Definition packet_beacon (x : Packet * HostAddr) : option HalfPathBeacon :=
  match fst x with
  | BeaconPacket _ q => Some q
  | PathRecordsPacket _ _ _ _ => None
  end.

(** The kind of segment a packet registers, if it is a path record. *)
Definition packet_kind (x : Packet * HostAddr) : option PathInfoType :=
  match fst x with
  | BeaconPacket _ _ => None
  | PathRecordsPacket _ info _ _ => Some (pi_type info)
  end.

(** The contents of the beacons of a queue, read in the store [h]. *)
Fixpoint stored (h : list HalfPathBeacon) (q : list ref)
  : list HalfPathBeacon :=
  match q with
  | [] => []
  | r :: rest =>
      match h !! r with
      | Some p => p :: stored h rest
      | None => stored h rest
      end
  end.

(** The object a registration leaves in the store for a queued beacon of
    contents [p]. *)
Definition registered_copy (p : HalfPathBeacon) : HalfPathBeacon :=
  remove_signatures (terminated self p).

(** The next hop towards the origin of [p], if the interface table has
    the first interface of the reversed path. *)
Definition next_hop_of (p : HalfPathBeacon) : option HostAddr :=
  ifid2addr self !! reverse_first_hop (registered_copy p).

(** The two records of a core server for a queued beacon of contents [p]:
    one for the local path server, if there is one, and one towards the
    origin. *)
Definition core_records (p : HalfPathBeacon) (next_hop : HostAddr)
  : list (Packet * HostAddr) :=
  local_registration self (core_info self p) (terminated self p)
    ++ [origin_record self (core_info self p) (registered_copy p) next_hop].

(** The two records of a leaf server with the path server [ps]. *)
Definition leaf_records (ps : ServerElement) (p : HalfPathBeacon)
  (next_hop : HostAddr) : list (Packet * HostAddr) :=
  [local_record ps (leaf_info self PIT_UP p) (terminated self p);
   origin_record self (leaf_info self PIT_DOWN p) (registered_copy p)
     next_hop].

(** The records of a whole queue, beacon after beacon. *)
Definition records_of
  (records : HalfPathBeacon -> HostAddr -> list (Packet * HostAddr))
  (h : list HalfPathBeacon) (q : list ref) : list (Packet * HostAddr) :=
  concat (map (fun p => match next_hop_of p with
                        | Some next_hop => records p next_hop
                        | None => []
                        end) (stored h q)).

(** Every beacon of the queue is in the store and has a next hop towards
    its origin. *)
Definition registrable (h : list HalfPathBeacon) (q : list ref) : Prop :=
  Forall (fun r => exists p, h !! r = Some p /\ is_Some (next_hop_of p)) q.

(** The state a registration round ends in when every queued beacon gets
    registered with [records]. *)
Definition all_registered
  (records : HalfPathBeacon -> HostAddr -> list (Packet * HostAddr))
  (s : State) : State :=
  mkState (beacons s) []
    (heap s ++ map registered_copy (stored (heap s) (reg_queue s)))
    (sent s ++ records_of records (heap s) (reg_queue s)).

(** The routers a server of the role sends beacons to. *)
Definition targets (role : Role) : list RouterElement :=
  match role with
  | Core => routers (topology self) CHILD ++ routers (topology self) ROUTING
  | Local => routers (topology self) CHILD
  end.

(** The kinds of segment a server of the role registers. *)
Definition registers_kind (role : Role) (kind : PathInfoType) : Prop :=
  match role, kind with
  | Core, PIT_CORE => True
  | Local, PIT_UP => True
  | Local, PIT_DOWN => True
  | _, _ => False
  end.

(** What a packet sent by a server of the role looks like.  A beacon goes
    to one of the role's routers, with that router's interface in its
    ROTField, and ends with a marking of this AD; from a core server no
    earlier marking is of this AD.  A path record is of a kind the role
    registers, and path registration is switched on. *)
Definition sent_ok (role : Role) (x : Packet * HostAddr) : Prop :=
  match fst x with
  | BeaconPacket dst q =>
      (exists router : RouterElement,
         In router (targets role) /\ dst = r_addr router /\
         snd x = r_addr router /\
         rotf q = mkROTField (itf_if_id (interface router))) /\
      (exists (pre : list ADMarking) (m : ADMarking),
         ads q = pre ++ [m] /\ own_marking self m /\
         (role = Core -> Forall (fun m' => ~ own_marking self m') pre))
  | PathRecordsPacket _ info _ _ =>
      registers_paths (config self) = true /\
      registers_kind role (pi_type info)
  end.

(** What holds of every state a server gets to: both queues point into
    the store, a core server's inbound queue holds no beacon with a
    marking of its own AD, and every packet sent so far is as [sent_ok]
    says. *)
Definition server_inv (role : Role) (s : State) : Prop :=
  queue_ok (heap s) (beacons s) /\
  queue_ok (heap s) (reg_queue s) /\
  (role = Core -> Forall (fun r => unseen (heap s) r = true) (beacons s)) /\
  Forall (sent_ok role) (sent s).

(** The state after a parsed beacon was stored as a new object. *)
Definition parsed_into (parsed : HalfPathBeacon) (s : State) : State :=
  mkState (beacons s) (reg_queue s) (heap s ++ [parsed]) (sent s).

(** What registration does to a state, whether it returns or raises: the
    inbound queue is as it was, the store has only grown, the
    registration queue lost beacons at its head, and the packets added are
    path records of the role's kinds. *)
Definition registration_frame (role : Role) (s s' : State) : Prop :=
  beacons s' = beacons s /\
  store_extends (heap s) (heap s') /\
  (exists done : list ref, reg_queue s = done ++ reg_queue s') /\
  exists added : list (Packet * HostAddr),
    sent s' = sent s ++ added /\
    Forall (fun x => exists kind, packet_kind x = Some kind /\
                                  registers_kind role kind) added.

Definition frames {A : Type} (role : Role) (m : Exec A) : Prop :=
  forall s : State, registration_frame role s (final_state (m s)).

End FurtherVocabulary.

(** * Properties *)

(** ** The timestamp of an originated beacon *)

Lemma timestamp_quarters (now : Z) :
  CoreBeaconServer.timestamp now = ((now + 86400) mod 262144 # 4)%Q.
Proof.
  unfold CoreBeaconServer.timestamp, truediv, BeaconServer.DELTA,
    BeaconServer.TIME_INTERVAL.
  change (4 * 2 ^ 16) with 262144.
  change (24 * 60 * 60) with 86400.
  unfold Qdiv, Qmult, Qinv, inject_Z; simpl.
  f_equal. lia.
Qed.

Lemma is_integer_quarters (n : Z) : is_integer (n # 4) <-> n mod 4 = 0.
Proof.
  unfold is_integer, Qeq, inject_Z; simpl. split.
  - intros [z Hz]. rewrite Z.mul_1_r in Hz. subst n.
    apply Z_mod_mult.
  - intros Hn. exists (n / 4). rewrite Z.mul_1_r.
    pose proof (Z_div_mod_eq_full n 4). lia.
Qed.

(** The timestamp is a whole number exactly at the clock readings that
    are multiples of the 4-second quantum. *)
Lemma timestamp_integer_iff (now : Z) :
  is_integer (CoreBeaconServer.timestamp now) <-> now mod 4 = 0.
Proof.
  rewrite timestamp_quarters, is_integer_quarters.
  replace (((now + 86400) mod 262144) mod 4) with (now mod 4); [tauto|].
  rewrite (Z.mod_mod_divide (now + 86400) 262144 4) by (exists 65536; lia).
  replace (now + 86400) with (now + 21600 * 4) by lia.
  now rewrite Z_mod_plus_full.
Qed.

(** X1: whatever the clock reads, the timestamp is at least 0 and below
    2^16, and the whole number of quanta in it is within [0, 65535]. *)
Lemma timestamp_bounds (now : Z) :
  (0 <= CoreBeaconServer.timestamp now)%Q /\
  (CoreBeaconServer.timestamp now < 65536)%Q /\
  0 <= Qfloor (CoreBeaconServer.timestamp now) <= 65535.
Proof.
  rewrite timestamp_quarters.
  pose proof (Z.mod_pos_bound (now + 86400) 262144 eq_refl) as Hm.
  set (m := (now + 86400) mod 262144) in *.
  split; [| split].
  - unfold Qle; simpl. lia.
  - unfold Qlt; simpl. lia.
  - unfold Qfloor. change (Z.pos 4) with 4.
    pose proof (Z.div_le_mono 0 m 4 eq_refl (proj1 Hm)).
    pose proof (Z.div_lt_upper_bound m 4 65536 eq_refl).
    change (0 / 4) with 0 in *. lia.
Qed.

(** C1, at the clock reading 1420070401 (one second into 2015): the
    timestamp handed to [InfoOpaqueField.from_values] is 122753/4 =
    30688.25, which is not an integer. *)
Theorem timestamp_at_1420070401_not_integer :
  (CoreBeaconServer.timestamp 1420070401 == 122753 # 4)%Q /\
  ~ is_integer (CoreBeaconServer.timestamp 1420070401).
Proof.
  split.
  - rewrite timestamp_quarters. reflexivity.
  - rewrite timestamp_integer_iff. discriminate.
Qed.

(** At the clock reading 1420209791 the timestamp is 262143/4 = 65535.75,
    above 65535. *)
Lemma timestamp_at_1420209791_above_range :
  (CoreBeaconServer.timestamp 1420209791 == 262143 # 4)%Q /\
  (65535 < CoreBeaconServer.timestamp 1420209791)%Q.
Proof.
  rewrite timestamp_quarters. split; reflexivity.
Qed.

(** ** The signed region of an AD marking *)

Section ADMarkingBuilder.
Context `{PacketLib} (self : SCIONElement).
Import BeaconServer.

Lemma peer_markings_length_app (l1 l2 : list PeerMarking) :
  peer_markings_length (l1 ++ l2) =
  peer_markings_length l1 + peer_markings_length l2.
Proof.
  unfold peer_markings_length.
  induction l1 as [|pm l1 IH]; simpl; [reflexivity|].
  rewrite IH. lia.
Qed.

(** The loop keeps [block_size] in step with the list it appends to: it
    adds [LEN] exactly when it appends a peer marking. *)
Lemma peer_markings_loop_spec (egress_if : Z) (peers : list RouterElement) :
  forall (m : PCBMarking) (acc : list PeerMarking),
    let '(m', acc') := peer_markings_loop self egress_if peers m acc in
    acc' = acc ++ map (peer_marking_for self egress_if) peers /\
    block_size (ssf m') - peer_markings_length acc' =
      block_size (ssf m) - peer_markings_length acc /\
    ad_id m' = ad_id m /\ hof m' = hof m /\ spcbf m' = spcbf m.
Proof.
  induction peers as [|router_peer rest IH]; intros m acc; simpl.
  - rewrite app_nil_r. repeat split.
  - specialize (IH
      (mkPCBMarking (ad_id m)
         (mkSupportSignatureField
            (block_size (ssf m) + LEN (peer_marking_for self egress_if router_peer)))
         (hof m) (spcbf m))
      (acc ++ [peer_marking_for self egress_if router_peer])).
    fold (peer_marking_for self egress_if router_peer).
    destruct (peer_markings_loop self egress_if rest _ _) as [m' acc'].
    destruct IH as (Hacc & Hsize & Had & Hhof & Hspcbf).
    simpl in *. repeat split; try assumption.
    + rewrite Hacc, <- app_assoc. reflexivity.
    + rewrite Hsize, peer_markings_length_app.
      unfold peer_markings_length at 2; simpl. lia.
Qed.

(** C5: the marking built for any ingress and egress interface carries one
    peer marking per PEER router of the topology, and its [block_size] is
    the base PCBMarking length plus the sum of their lengths. *)
Theorem create_ad_marking_block_size (ingress_if egress_if : Z) :
  let m := _create_ad_marking self ingress_if egress_if in
  pms m = map (peer_marking_for self egress_if) (routers (topology self) PEER) /\
  length (pms m) = length (routers (topology self) PEER) /\
  block_size (ssf (pcbm m)) = PCBMarking_LEN + peer_markings_length (pms m).
Proof.
  unfold _create_ad_marking.
  pose proof (peer_markings_loop_spec egress_if (routers (topology self) PEER)
    (PCBMarking_from_values (topo_ad_id (topology self))
       SupportSignatureField_new
       (HopOpaqueField_from_values ingress_if egress_if)
       (SupportPCBField_from_values (isd_id (topology self))))
    []) as Hloop.
  destruct (peer_markings_loop self egress_if _ _ _) as [m' acc'].
  destruct Hloop as (Hacc & Hsize & _).
  simpl in *. subst acc'.
  split; [reflexivity|]. split; [now rewrite length_map|].
  unfold peer_markings_length at 2 in Hsize. simpl in Hsize. lia.
Qed.

(** The rest of the marking: the AD's identity and the hop it describes. *)
Lemma create_ad_marking_fields (ingress_if egress_if : Z) :
  let m := _create_ad_marking self ingress_if egress_if in
  ad_id (pcbm m) = topo_ad_id (topology self) /\
  hof (pcbm m) = mkHopOpaqueField ingress_if egress_if /\
  spcbf (pcbm m) = mkSupportPCBField (isd_id (topology self)) /\
  sig m = [].
Proof.
  unfold _create_ad_marking.
  pose proof (peer_markings_loop_spec egress_if (routers (topology self) PEER)
    (PCBMarking_from_values (topo_ad_id (topology self))
       SupportSignatureField_new
       (HopOpaqueField_from_values ingress_if egress_if)
       (SupportPCBField_from_values (isd_id (topology self))))
    []) as Hloop.
  destruct (peer_markings_loop self egress_if _ _ _) as [m' acc'].
  destruct Hloop as (_ & _ & Had & Hhof & Hspcbf).
  simpl in *. repeat split; assumption.
Qed.

End ADMarkingBuilder.

(** ** Loop prevention on a core server *)

Section CoreAccept.
Context `{PacketLib} (self : SCIONElement).
Import CoreBeaconServer.

Lemma own_marking_test (m : ADMarking) :
  (spcbf_isd_id (spcbf (pcbm m)) =? isd_id (topology self)) &&
  (ad_id (pcbm m) =? topo_ad_id (topology self)) = true
  <-> own_marking self m.
Proof.
  unfold own_marking. rewrite andb_true_iff, !Z.eqb_eq. reflexivity.
Qed.

Lemma already_seen_true (l : list ADMarking) :
  already_seen self l = true <-> Exists (own_marking self) l.
Proof.
  induction l as [|m l IH]; simpl.
  - rewrite Exists_nil. split; [discriminate | tauto].
  - rewrite Exists_cons, <- IH, <- own_marking_test.
    destruct (_ && _); intuition congruence.
Qed.

Lemma already_seen_false (l : list ADMarking) :
  already_seen self l = false <-> Forall (fun m => ~ own_marking self m) l.
Proof.
  induction l as [|m l IH]; simpl.
  - split; [constructor | reflexivity].
  - rewrite Forall_cons, <- IH, <- own_marking_test.
    destruct (_ && _); intuition congruence.
Qed.

(** The scan reads nothing but the [PCBMarking] of each marking. *)
Lemma already_seen_pcbm (l1 l2 : list ADMarking) :
  map pcbm l1 = map pcbm l2 -> already_seen self l1 = already_seen self l2.
Proof.
  revert l2. induction l1 as [|m1 l1 IH]; intros [|m2 l2] Heq;
    simpl in *; try discriminate; [reflexivity|].
  injection Heq as Hm Hl. rewrite Hm, (IH _ Hl). reflexivity.
Qed.

Lemma enqueued_neq (pcb : ref) (s : State) : enqueued pcb s <> s.
Proof.
  intros Heq. apply (f_equal (fun x => length (beacons x))) in Heq.
  unfold enqueued in Heq; simpl in Heq. rewrite length_app in Heq.
  simpl in Heq. lia.
Qed.

(** C3: a beacon one of whose markings, at whatever position, carries the
    server's own ISD and AD is dropped, and the state with its inbound
    queue stays as it was; a beacon without such a marking joins the end of
    the inbound queue. *)
Theorem core_process_pcb_loop_prevention
  (s : State) (pcb : ref) (p : HalfPathBeacon) :
  heap s !! pcb = Some p ->
  ((exists pre m post, ads p = pre ++ m :: post /\ own_marking self m) ->
   process_pcb self pcb s = Returned tt s) /\
  ((forall m, In m (ads p) -> ~ own_marking self m) ->
   process_pcb self pcb s = Returned tt (enqueued pcb s) /\
   beacons (enqueued pcb s) = beacons s ++ [pcb]).
Proof.
  intros Hp. unfold process_pcb, bind, deref. rewrite Hp. split.
  - intros (pre & m & post & Hads & Hown).
    assert (already_seen self (ads p) = true) as ->; [|reflexivity].
    apply already_seen_true. rewrite Hads.
    apply Exists_app. right. now apply Exists_cons_hd.
  - intros Hnone.
    assert (already_seen self (ads p) = false) as ->; [|split; reflexivity].
    apply already_seen_false, Forall_forall.
    intros m Hm. apply Hnone. now apply list_elem_of_In.
Qed.

(** C10: the beacon is enqueued if and only if no marking's [PCBMarking]
    carries the server's own ISD and AD; beacons that differ only in their
    peer markings and signatures are treated alike, whatever identity
    those peer markings name. *)
Theorem core_filter_reads_pcbm_only
  (s : State) (pcb : ref) (p : HalfPathBeacon) :
  heap s !! pcb = Some p ->
  (process_pcb self pcb s = Returned tt (enqueued pcb s)
   <-> Forall (fun m => ~ own_marking self m) (ads p)) /\
  (forall (s' : State) (pcb' : ref) (p' : HalfPathBeacon),
     heap s' !! pcb' = Some p' ->
     map pcbm (ads p') = map pcbm (ads p) ->
     (process_pcb self pcb' s' = Returned tt (enqueued pcb' s')
      <-> process_pcb self pcb s = Returned tt (enqueued pcb s))).
Proof.
  intros Hp.
  assert (forall s0 r q, heap s0 !! r = Some q ->
            (process_pcb self r s0 = Returned tt (enqueued r s0)
             <-> already_seen self (ads q) = false)) as Hiff.
  { intros s0 r q Hq. unfold process_pcb, bind, deref. rewrite Hq.
    destruct (already_seen self (ads q)); simpl.
    - unfold ret. split; [|discriminate].
      intros Heq. injection Heq as Heq. symmetry in Heq.
      now apply enqueued_neq in Heq.
    - split; reflexivity. }
  split.
  - rewrite (Hiff s pcb p Hp). apply already_seen_false.
  - intros s' pcb' p' Hp' Hsame.
    rewrite (Hiff s pcb p Hp), (Hiff s' pcb' p' Hp').
    now rewrite (already_seen_pcbm _ _ Hsame).
Qed.

End CoreAccept.

(** ** Fan-out: one augmented copy per neighbor *)

Section Propagation.
Context `{PacketLib} (self : SCIONElement).
Import BeaconServer.

Lemma lookup_snoc (h : list HalfPathBeacon) (v : HalfPathBeacon) :
  (h ++ [v]) !! length h = Some v.
Proof. rewrite lookup_app_r by lia. now rewrite Nat.sub_diag. Qed.

Lemma insert_snoc (h : list HalfPathBeacon) (v w : HalfPathBeacon) :
  <[length h := w]> (h ++ [v]) = h ++ [w].
Proof.
  rewrite insert_app_r_alt by lia. now rewrite Nat.sub_diag.
Qed.

Lemma deref_ok (s : State) (r : ref) (v : HalfPathBeacon) :
  heap s !! r = Some v -> deref r s = Returned v s.
Proof. intros Hv. unfold deref. now rewrite Hv. Qed.

Lemma propagate_loop_spec (pcb : ref) (ingress_if : Z) (p : HalfPathBeacon)
  (neighbors : list RouterElement) :
  forall s : State,
    heap s !! pcb = Some p ->
    propagate_loop self pcb ingress_if neighbors s =
    Returned tt (fanned_out self ingress_if p neighbors s).
Proof.
  induction neighbors as [|router rest IH]; intros s Hp.
  - simpl. unfold ret, fanned_out. simpl. rewrite !app_nil_r.
    now destruct s.
  - simpl propagate_loop.
    unfold bind at 1. unfold deepcopy, bind at 1. rewrite (deref_ok _ _ _ Hp).
    unfold alloc.
    unfold bind at 1. unfold set_rotf_if_id, bind at 1, deref at 1. simpl heap.
    rewrite lookup_snoc. unfold assign. simpl.
    rewrite insert_snoc.
    unfold bind at 1. unfold obj_add_ad, bind at 1, deref at 1. simpl heap.
    rewrite lookup_snoc. simpl. rewrite insert_snoc.
    unfold bind at 1. unfold send, bind at 1, pack, bind at 1, deref at 1.
    simpl heap. rewrite lookup_snoc. unfold ret. simpl.
    rewrite IH by (simpl; now apply lookup_app_l_Some).
    unfold fanned_out. simpl. rewrite <- !app_assoc. reflexivity.
Qed.

Lemma fanned_out_fan_out_of (pcb : ref) (p : HalfPathBeacon)
  (neighbors : list RouterElement) (s : State) :
  heap s !! pcb = Some p ->
  fan_out_of self pcb p neighbors s
    (Returned tt (fanned_out self (if_id (rotf p)) p neighbors s)).
Proof.
  intros Hp. exists (fanned_out self (if_id (rotf p)) p neighbors s).
  unfold fanned_out; simpl.
  split; [reflexivity|].
  split; [intros r v Hr; now apply lookup_app_l_Some|].
  split; [now apply lookup_app_l_Some|].
  split; [reflexivity|]. split; [reflexivity|].
  split; [now rewrite length_app, length_map|].
  split; [now rewrite length_app, length_map|].
  split; [intros r pkt Hr; now apply lookup_app_l_Some|].
  intros i router Hi.
  exists (augmented self (if_id (rotf p)) p router),
    (_create_ad_marking self (if_id (rotf p)) (itf_if_id (interface router))).
  split.
  { rewrite lookup_app_r by lia.
    replace (length (heap s) + i - length (heap s))%nat with i by lia.
    rewrite list_lookup_fmap, Hi. reflexivity. }
  split.
  { rewrite lookup_app_r by lia.
    replace (length (sent s) + i - length (sent s))%nat with i by lia.
    rewrite list_lookup_fmap, Hi. reflexivity. }
  repeat split.
  apply (create_ad_marking_fields self).
Qed.

(** C4: propagating a beacon to the CHILD routers (downstream) or to the
    ROUTING routers (core mesh) sends each of the N neighbors a copy of its
    own: a new object carrying the original's markings followed by one new
    marking whose hop goes from the original's ROTField interface to that
    neighbor's interface, with the ROTField set to that interface; the
    original object is as before. *)
Theorem propagation_copies_are_independent
  (s : State) (pcb : ref) (p : HalfPathBeacon) :
  heap s !! pcb = Some p ->
  fan_out_of self pcb p (routers (topology self) CHILD) s
    (propagate_downstream_pcb self pcb s) /\
  fan_out_of self pcb p (routers (topology self) ROUTING) s
    (CoreBeaconServer.propagate_core_pcb self pcb s).
Proof.
  intros Hp. split.
  - unfold propagate_downstream_pcb, bind. rewrite (deref_ok _ _ _ Hp).
    rewrite (propagate_loop_spec _ _ p) by assumption.
    now apply fanned_out_fan_out_of.
  - unfold CoreBeaconServer.propagate_core_pcb, bind.
    rewrite (deref_ok _ _ _ Hp).
    rewrite (propagate_loop_spec _ _ p) by assumption.
    now apply fanned_out_fan_out_of.
Qed.

(** Two neighbors' copies differ in nothing but what the egress interface
    decides. *)
Lemma augmented_egress_only (ingress_if : Z) (p : HalfPathBeacon)
  (r1 r2 : RouterElement) :
  itf_if_id (interface r1) = itf_if_id (interface r2) ->
  augmented self ingress_if p r1 = augmented self ingress_if p r2.
Proof. unfold augmented. now intros ->. Qed.

End Propagation.

(** ** Propagation rounds *)

Section Rounds.
Context `{PacketLib} (self : SCIONElement).
Import BeaconServer.

Lemma queue_ok_app (h ext : list HalfPathBeacon) (q : list ref) :
  queue_ok h q -> queue_ok (h ++ ext) q.
Proof.
  unfold queue_ok. intros Hq. eapply Forall_impl; [exact Hq|].
  intros r [v Hv]. exists v. now apply lookup_app_l_Some.
Qed.

Lemma forwarded_objects_app (neighbors : list RouterElement)
  (h ext : list HalfPathBeacon) (q : list ref) :
  queue_ok h q ->
  forwarded_objects self neighbors (h ++ ext) q = forwarded_objects self neighbors h q.
Proof.
  unfold forwarded_objects.
  induction 1 as [|r q [v Hv] _ IH]; simpl; [reflexivity|].
  rewrite IH, (lookup_app_l_Some _ _ _ _ Hv), Hv. reflexivity.
Qed.

Lemma forwarded_packets_app (neighbors : list RouterElement)
  (h ext : list HalfPathBeacon) (q : list ref) :
  queue_ok h q ->
  forwarded_packets self neighbors (h ++ ext) q = forwarded_packets self neighbors h q.
Proof.
  unfold forwarded_packets.
  induction 1 as [|r q [v Hv] _ IH]; simpl; [reflexivity|].
  rewrite IH, (lookup_app_l_Some _ _ _ _ Hv), Hv. reflexivity.
Qed.

(** The inner loop of a propagation round, for a [propagate] that fans
    out over [neighbors]: with fuel for every queued beacon it empties the
    inbound queue, forwards each beacon and queues it for registration. *)
Lemma drain_spec (neighbors : list RouterElement)
  (propagate : ref -> Exec unit) :
  (forall s r p, heap s !! r = Some p ->
     propagate r s = Returned tt (fanned_out self (if_id (rotf p)) p neighbors s)) ->
  forall (q : list ref) (fuel : nat) (s : State),
    beacons s = q -> queue_ok (heap s) q -> (length q <= fuel)%nat ->
    while_popleft fuel beacons_popleft
      (fun pcb => propagate pcb ;> reg_queue_append pcb) s =
    Returned tt (drained self neighbors s).
Proof.
  intros Hprop. induction q as [|r rest IH]; intros fuel s Hq Hok Hfuel.
  - unfold drained. rewrite Hq. unfold forwarded_objects, forwarded_packets.
    simpl. rewrite !app_nil_r.
    destruct fuel as [|fuel]; simpl.
    + unfold ret. destruct s; simpl in *; now subst.
    + unfold bind, beacons_popleft. rewrite Hq. unfold ret.
      destruct s; simpl in *; now subst.
  - destruct fuel as [|fuel]; [simpl in Hfuel; lia|].
    simpl in Hfuel. simpl while_popleft.
    unfold bind at 1. unfold beacons_popleft. rewrite Hq.
    inversion Hok as [|? ? [p Hp] Hrest]; subst.
    unfold bind at 1. unfold bind at 1.
    rewrite (Hprop _ r p) by exact Hp.
    unfold reg_queue_append.
    rewrite (IH fuel); simpl.
    + unfold drained, fanned_out. simpl. rewrite Hq.
      rewrite forwarded_objects_app, forwarded_packets_app by assumption.
      unfold forwarded_objects, forwarded_packets. simpl. rewrite Hp.
      rewrite <- !app_assoc. reflexivity.
    + reflexivity.
    + now apply queue_ok_app.
    + lia.
Qed.

(** A round of a leaf server's propagation loop. *)
Lemma local_round_spec (s : State) :
  queue_ok (heap s) (beacons s) ->
  handle_pcbs_propagation_round self s =
  Returned tt (drained self (routers (topology self) CHILD) s).
Proof.
  intros Hok. unfold handle_pcbs_propagation_round.
  apply (drain_spec _ (propagate_downstream_pcb self)) with (q := beacons s);
    [| reflexivity | assumption | lia].
  intros s0 r p Hp. unfold propagate_downstream_pcb, bind.
  rewrite (deref_ok _ _ _ Hp). now apply propagate_loop_spec.
Qed.

Lemma core_round_spec (now : Z) (s : State) :
  queue_ok (heap s) (beacons s) ->
  CoreBeaconServer.handle_pcbs_propagation_round self now s =
  Returned tt (core_round_state self now s).
Proof.
  intros Hok. unfold CoreBeaconServer.handle_pcbs_propagation_round.
  unfold bind at 1. unfold CoreBeaconServer.originate at 1, alloc.
  fold (fresh_pcb self now).
  unfold bind at 1. unfold propagate_downstream_pcb at 1, bind at 1.
  rewrite (deref_ok _ _ (fresh_pcb self now)) by (simpl; apply lookup_snoc).
  rewrite (propagate_loop_spec self _ _ (fresh_pcb self now))
    by (simpl; apply lookup_snoc).
  unfold bind at 1. unfold CoreBeaconServer.originate at 1, alloc.
  fold (fresh_pcb self now).
  unfold bind at 1. unfold CoreBeaconServer.propagate_core_pcb at 1, bind at 1.
  rewrite (deref_ok _ _ (fresh_pcb self now)) by (simpl; apply lookup_snoc).
  rewrite (propagate_loop_spec self _ _ (fresh_pcb self now))
    by (simpl; apply lookup_snoc).
  assert (forall s0 r p, heap s0 !! r = Some p ->
            CoreBeaconServer.propagate_core_pcb self r s0 =
            Returned tt
              (fanned_out self (if_id (rotf p)) p
                 (routers (topology self) ROUTING) s0)) as Hprop.
  { intros s0 r p Hp. unfold CoreBeaconServer.propagate_core_pcb, bind.
    rewrite (deref_ok _ _ _ Hp). now apply propagate_loop_spec. }
  rewrite (drain_spec _ _ Hprop (beacons s)); simpl.
  - unfold drained, core_round_state, origination, fanned_out. simpl.
    rewrite <- !app_assoc. simpl.
    rewrite forwarded_objects_app, forwarded_packets_app by assumption.
    reflexivity.
  - reflexivity.
  - rewrite <- !app_assoc. now apply queue_ok_app.
  - lia.
Qed.

(** C6: a round of a core server's propagation loop returns, having sent,
    in this order, one beacon originated in the round to every CHILD
    router, one originated in the round to every ROUTING router, and every
    beacon of the inbound queue to the ROUTING routers and to no other;
    the inbound queue is empty afterwards, and its beacons have joined the
    registration queue as the objects they were, without the marking
    their copies were sent with. *)
Theorem core_round_propagates (now : Z) (s : State) :
  queue_ok (heap s) (beacons s) ->
  exists s' : State,
    CoreBeaconServer.handle_pcbs_propagation_round self now s
      = Returned tt s' /\
    sent s' =
      sent s
        ++ origination self now (routers (topology self) CHILD)
        ++ origination self now (routers (topology self) ROUTING)
        ++ forwarded_packets self (routers (topology self) ROUTING)
             (heap s) (beacons s) /\
    beacons s' = [] /\
    reg_queue s' = reg_queue s ++ beacons s /\
    Forall (fun r => heap s' !! r = heap s !! r) (beacons s).
Proof.
  intros Hok. exists (core_round_state self now s).
  split; [now apply core_round_spec|].
  repeat split.
  unfold core_round_state; simpl.
  eapply Forall_impl; [exact Hok|]. intros r [v Hv]; simpl.
  rewrite Hv. now apply lookup_app_l_Some.
Qed.

Lemma origination_timestamp (now : Z) (neighbors : list RouterElement) :
  Forall (fun x => packet_timestamp x = Some (CoreBeaconServer.timestamp now))
    (origination self now neighbors).
Proof.
  unfold origination. apply Forall_fmap, Forall_forall.
  intros router _. reflexivity.
Qed.

(** C8: in a round of a core server's propagation loop the downstream
    beacon and the core beacon are two objects with the same timestamp,
    the one computed from the clock reading of the round, and so is the
    timestamp of every copy of them sent to a CHILD or ROUTING router. *)
Theorem core_round_same_timestamp (now : Z) (s : State) :
  queue_ok (heap s) (beacons s) ->
  exists (s' : State) (downstream_pcb core_pcb : HalfPathBeacon),
    CoreBeaconServer.handle_pcbs_propagation_round self now s
      = Returned tt s' /\
    heap s' !! length (heap s) = Some downstream_pcb /\
    heap s' !! (length (heap s) + 1
                + length (routers (topology self) CHILD))%nat
      = Some core_pcb /\
    iof_timestamp (iof downstream_pcb) = CoreBeaconServer.timestamp now /\
    iof_timestamp (iof core_pcb) = iof_timestamp (iof downstream_pcb) /\
    Forall
      (fun x => packet_timestamp x = Some (CoreBeaconServer.timestamp now))
      (take (length (routers (topology self) CHILD)
             + length (routers (topology self) ROUTING))
         (drop (length (sent s)) (sent s'))).
Proof.
  intros Hok. exists (core_round_state self now s), (fresh_pcb self now), (fresh_pcb self now).
  split; [now apply core_round_spec|].
  unfold core_round_state; simpl.
  split.
  { rewrite lookup_app_r by lia. now rewrite Nat.sub_diag. }
  split.
  { rewrite lookup_app_r by lia.
    replace (length (heap s) + 1 + length (routers (topology self) CHILD)
             - length (heap s))%nat
      with (S (length (routers (topology self) CHILD))) by lia.
    simpl. rewrite lookup_app_r by (rewrite length_map; lia).
    rewrite length_map, Nat.sub_diag. reflexivity. }
  split; [reflexivity|]. split; [reflexivity|].
  rewrite drop_app_length.
  rewrite app_assoc, take_app_length'.
  - apply Forall_app. split; apply origination_timestamp.
  - unfold origination. now rewrite length_app, !length_map.
Qed.

End Rounds.

(** ** Registration *)

Section Registration.
Context `{PacketLib}.
Import BeaconServer.

Lemma get_first_ad_terminated (self : SCIONElement) (p : HalfPathBeacon) :
  get_first_ad (terminated self p) = Some (origin_marking self p).
Proof.
  unfold get_first_ad, terminated, origin_marking, add_ad; simpl.
  now destruct (ads p).
Qed.

Lemma get_first_ad_remove_signatures (q : HalfPathBeacon) :
  get_first_ad (remove_signatures q) = get_first_ad q.
Proof.
  unfold get_first_ad, remove_signatures; simpl. now destruct (ads q).
Qed.

Lemma remove_signatures_layout (q : HalfPathBeacon) :
  iof (remove_signatures q) = iof q /\
  rotf (remove_signatures q) = rotf q /\
  map pcbm (ads (remove_signatures q)) = map pcbm (ads q) /\
  map pms (ads (remove_signatures q)) = map pms (ads q) /\
  Forall (fun ad => sig ad = []) (ads (remove_signatures q)).
Proof.
  unfold remove_signatures; simpl. repeat split.
  - induction (ads q) as [|a l IH]; simpl; [reflexivity | now rewrite IH].
  - induction (ads q) as [|a l IH]; simpl; [reflexivity | now rewrite IH].
  - apply Forall_fmap, Forall_forall. intros a _. reflexivity.
Qed.

(** What the registration of one queued beacon does on a core server. *)
Lemma core_register_one_spec (self : SCIONElement) (s : State) (r : ref)
  (p : HalfPathBeacon) :
  heap s !! r = Some p ->
  CoreBeaconServer.register_one self r s =
  let p1 := terminated self p in
  let p2 := remove_signatures p1 in
  let info := core_info self p in
  match ifid2addr self !! reverse_first_hop p2 with
  | Some next_hop =>
      Returned tt
        (registered s p2
           (local_registration self info p1
              ++ [origin_record self info p2 next_hop]))
  | None =>
      Raised KeyError (registered s p2 (local_registration self info p1))
  end.
Proof.
  intros Hp. unfold CoreBeaconServer.register_one.
  unfold bind at 1. unfold deepcopy, bind at 1. rewrite (deref_ok _ _ _ Hp).
  unfold alloc.
  unfold bind at 1. unfold deref at 1. simpl heap. rewrite lookup_snoc.
  unfold bind at 1. unfold obj_add_ad, bind at 1, deref at 1. simpl heap.
  rewrite lookup_snoc. unfold assign. simpl. rewrite insert_snoc.
  fold (terminated self p).
  unfold CoreBeaconServer.register_core_path.
  unfold bind at 1. unfold obj_get_first_ad, bind at 1, deref at 1.
  simpl heap. rewrite lookup_snoc, get_first_ad_terminated. unfold ret at 1.
  fold (core_info self p).
  unfold local_registration, registered, origin_record, local_record,
    reverse_first_hop.
  destruct (servers (topology self) !! PATH_SERVER) as [ps|].
  - unfold bind at 1. unfold send, bind at 1, pack. simpl.
    rewrite lookup_snoc. simpl.
    unfold bind at 1. unfold obj_remove_signatures, bind at 1, deref at 1.
    simpl heap. rewrite lookup_snoc. unfold assign. simpl.
    rewrite insert_snoc.
    unfold bind at 1. unfold deref at 1. simpl heap. rewrite lookup_snoc.
    destruct (ifid2addr self !! _) as [next_hop|].
    + unfold send, bind, pack. simpl. rewrite lookup_snoc. simpl.
      rewrite <- app_assoc. reflexivity.
    + reflexivity.
  - unfold bind at 1. unfold ret at 1.
    unfold bind at 1. unfold obj_remove_signatures, bind at 1, deref at 1.
    simpl heap. rewrite lookup_snoc. unfold assign. simpl.
    rewrite insert_snoc.
    unfold bind at 1. unfold deref at 1. simpl heap. rewrite lookup_snoc.
    destruct (ifid2addr self !! _) as [next_hop|].
    + unfold send, bind, pack. simpl. rewrite lookup_snoc. simpl.
      reflexivity.
    + rewrite app_nil_r. reflexivity.
Qed.

(** What the registration of one queued beacon does on a leaf server. *)
Lemma local_register_one_spec (self : SCIONElement) (s : State) (r : ref)
  (p : HalfPathBeacon) :
  heap s !! r = Some p ->
  LocalBeaconServer.register_one self r s =
  let p1 := terminated self p in
  let p2 := remove_signatures p1 in
  match servers (topology self) !! PATH_SERVER with
  | None => Raised KeyError (registered s p1 [])
  | Some ps =>
      let up := local_record ps (leaf_info self PIT_UP p) p1 in
      match ifid2addr self !! reverse_first_hop p2 with
      | Some next_hop =>
          Returned tt
            (registered s p2
               [up; origin_record self (leaf_info self PIT_DOWN p) p2 next_hop])
      | None => Raised KeyError (registered s p2 [up])
      end
  end.
Proof.
  intros Hp. unfold LocalBeaconServer.register_one.
  unfold bind at 1. unfold deepcopy, bind at 1. rewrite (deref_ok _ _ _ Hp).
  unfold alloc.
  unfold bind at 1. unfold deref at 1. simpl heap. rewrite lookup_snoc.
  unfold bind at 1. unfold obj_add_ad, bind at 1, deref at 1. simpl heap.
  rewrite lookup_snoc. unfold assign. simpl. rewrite insert_snoc.
  fold (terminated self p).
  unfold bind at 1. unfold LocalBeaconServer.register_up_path.
  unfold bind at 1. unfold obj_get_first_ad, bind at 1, deref at 1.
  simpl heap. rewrite lookup_snoc, get_first_ad_terminated. unfold ret at 1.
  fold (leaf_info self PIT_UP p).
  unfold registered, origin_record, local_record, reverse_first_hop.
  destruct (servers (topology self) !! PATH_SERVER) as [ps|].
  - unfold send at 1, bind at 1, pack. simpl. rewrite lookup_snoc. simpl.
    unfold LocalBeaconServer.register_down_path.
    unfold bind at 1. unfold obj_remove_signatures, bind at 1, deref at 1.
    simpl heap. rewrite lookup_snoc. unfold assign. simpl.
    rewrite insert_snoc.
    unfold bind at 1. unfold obj_get_first_ad, bind at 1, deref at 1.
    simpl heap. rewrite lookup_snoc.
    rewrite get_first_ad_remove_signatures, get_first_ad_terminated.
    unfold ret at 1. fold (leaf_info self PIT_DOWN p).
    unfold bind at 1. unfold deref at 1. simpl heap. rewrite lookup_snoc.
    destruct (ifid2addr self !! _) as [next_hop|].
    + unfold send, bind, pack. simpl. rewrite lookup_snoc. simpl.
      rewrite <- app_assoc. reflexivity.
    + reflexivity.
  - unfold raise. simpl. rewrite app_nil_r. reflexivity.
Qed.

(** The inner loop of a registration round, one beacon at a time: with a
    beacon at the head of the queue, the loop pops it, runs the body on
    it, and goes on with the rest of the queue if the body returned. *)
Lemma registration_loop_step (body : ref -> Exec unit) (s : State)
  (r : ref) (rest : list ref) :
  reg_queue s = r :: rest ->
  while_popleft (length (reg_queue s)) reg_queue_popleft body s =
  match body r (mkState (beacons s) rest (heap s) (sent s)) with
  | Returned _ s1 => while_popleft (length rest) reg_queue_popleft body s1
  | Raised e s1 => Raised e s1
  end.
Proof.
  intros Hq. rewrite Hq. simpl.
  unfold bind at 1. unfold reg_queue_popleft. rewrite Hq.
  unfold bind. reflexivity.
Qed.

Lemma store_extends_refl (h : list HalfPathBeacon) : store_extends h h.
Proof. exists []. now rewrite app_nil_r. Qed.

Lemma store_extends_trans (h1 h2 h3 : list HalfPathBeacon) :
  store_extends h1 h2 -> store_extends h2 h3 -> store_extends h1 h3.
Proof.
  intros [e1 ->] [e2 ->]. exists (e1 ++ e2). now rewrite app_assoc.
Qed.

Lemma preserves_store_bind {A B : Type} (m : Exec A) (k : A -> Exec B) :
  preserves_store m -> (forall a, preserves_store (k a)) ->
  preserves_store (bind m k).
Proof.
  intros Hm Hk s. unfold bind. specialize (Hm s).
  destruct (m s) as [a s1|e s1]; simpl in *; [|assumption].
  eapply store_extends_trans; [exact Hm | apply Hk].
Qed.

Lemma preserves_store_ret {A : Type} (a : A) : preserves_store (ret a).
Proof. intros s. apply store_extends_refl. Qed.

Lemma preserves_store_while (fuel : nat) (body : ref -> Exec unit) :
  (forall r, preserves_store (body r)) ->
  preserves_store (while_popleft fuel reg_queue_popleft body).
Proof.
  intros Hbody. induction fuel as [|fuel IH]; simpl.
  - apply preserves_store_ret.
  - apply preserves_store_bind.
    + intros s. unfold reg_queue_popleft.
      destruct (reg_queue s); simpl; apply store_extends_refl.
    + intros [r|]; [|apply preserves_store_ret].
      apply preserves_store_bind; [apply Hbody | intros _; exact IH].
Qed.

Lemma preserves_store_rounds (n : nat) (round : Exec unit) :
  preserves_store round -> preserves_store (rounds n round).
Proof.
  intros Hround. induction n as [|n IH]; simpl.
  - apply preserves_store_ret.
  - apply preserves_store_bind; [exact Hround | intros _; exact IH].
Qed.

Lemma core_register_one_preserves (self : SCIONElement) (r : ref) :
  preserves_store (CoreBeaconServer.register_one self r).
Proof.
  intros s. destruct (heap s !! r) as [p|] eqn:Hp.
  - rewrite (core_register_one_spec self s r p Hp). cbv zeta.
    destruct (ifid2addr self !! _); simpl; now eexists.
  - unfold CoreBeaconServer.register_one, bind, deepcopy, bind, deref.
    rewrite Hp. simpl. apply store_extends_refl.
Qed.

Lemma local_register_one_preserves (self : SCIONElement) (r : ref) :
  preserves_store (LocalBeaconServer.register_one self r).
Proof.
  intros s. destruct (heap s !! r) as [p|] eqn:Hp.
  - rewrite (local_register_one_spec self s r p Hp). cbv zeta.
    destruct (servers (topology self) !! PATH_SERVER);
      [destruct (ifid2addr self !! _)|]; simpl; now eexists.
  - unfold LocalBeaconServer.register_one, bind, deepcopy, bind, deref.
    rewrite Hp. simpl. apply store_extends_refl.
Qed.

(** C9: whatever the state, and whether the registration loop returns or
    raises, on a core server and on a leaf server alike, every beacon
    object of the store, those popped from the registration queue among
    them, is afterwards what it was: the store has only grown.  For one
    popped beacon [r] of contents [p], what is added is one object, the
    copy of [p], and it is the copy that carries the terminating marking,
    stripped of its signatures once the registration got that far. *)
Theorem registration_keeps_queued_beacons
  (self : SCIONElement) (n : nat) (s : State) (r : ref) :
  store_extends (heap s)
    (heap (final_state (CoreBeaconServer.register_paths self n s))) /\
  store_extends (heap s)
    (heap (final_state (LocalBeaconServer.register_paths self n s))) /\
  match heap s !! r with
  | Some p =>
      heap (final_state (CoreBeaconServer.register_one self r s)) =
        heap s ++ [remove_signatures (terminated self p)] /\
      (heap (final_state (LocalBeaconServer.register_one self r s)) =
         heap s ++ [remove_signatures (terminated self p)] \/
       heap (final_state (LocalBeaconServer.register_one self r s)) =
         heap s ++ [terminated self p])
  | None => True
  end.
Proof.
  split; [|split].
  - unfold CoreBeaconServer.register_paths.
    destruct (negb _); [apply preserves_store_ret|].
    apply preserves_store_rounds. intros s0.
    unfold CoreBeaconServer.register_paths_round.
    apply preserves_store_while, core_register_one_preserves.
  - unfold LocalBeaconServer.register_paths.
    destruct (negb _); [apply preserves_store_ret|].
    apply preserves_store_rounds. intros s0.
    unfold LocalBeaconServer.register_paths_round.
    apply preserves_store_while, local_register_one_preserves.
  - destruct (heap s !! r) as [p|] eqn:Hp; [|exact I]. split.
    + rewrite (core_register_one_spec self s r p Hp). cbv zeta.
      destruct (ifid2addr self !! _); reflexivity.
    + rewrite (local_register_one_spec self s r p Hp). cbv zeta.
      destruct (servers (topology self) !! PATH_SERVER);
        [destruct (ifid2addr self !! _)|]; simpl; auto.
Qed.

End Registration.

(** ** Registration targets *)

Section RegistrationTargets.
Context `{PacketLib}.

Lemma store_extends_lookup (h h' : list HalfPathBeacon) (r : ref)
  (p : HalfPathBeacon) :
  store_extends h h' -> h !! r = Some p -> h' !! r = Some p.
Proof. intros [ext ->] Hp. now apply lookup_app_l_Some. Qed.

(** C2, as the code has it: with a beacon [r] at the head of the
    registration queue, a core server sends its local path server a record
    only if the topology has one, and goes on to the origin-directed
    record either way.  On a core server, and on a leaf server that has a
    path server, when the interface table has no entry for the first hop
    of the reversed path, the registration loop raises [KeyError] instead
    of sending the origin-directed (core) or DOWN (leaf) record, and the
    beacons behind [r] stay in the queue; when the table has the entry the
    record is sent and the loop goes on with the rest of the queue. *)
Theorem registration_target_unavailable
  (core leaf : SCIONElement) (s : State) (r : ref) (rest : list ref)
  (p : HalfPathBeacon) (ps : ServerElement) :
  reg_queue s = r :: rest ->
  heap s !! r = Some p ->
  servers (topology leaf) !! PATH_SERVER = Some ps ->
  let popped := mkState (beacons s) rest (heap s) (sent s) in
  CoreBeaconServer.register_paths_round core s =
    (let p1 := terminated core p in
     let p2 := remove_signatures p1 in
     let info := core_info core p in
     let to_local :=
       match servers (topology core) !! PATH_SERVER with
       | Some ps' => [local_record ps' info p1]
       | None => []
       end in
     match ifid2addr core !! reverse_first_hop p2 with
     | Some next_hop =>
         while_popleft (length rest) reg_queue_popleft
           (CoreBeaconServer.register_one core)
           (registered popped p2
              (to_local ++ [origin_record core info p2 next_hop]))
     | None => Raised KeyError (registered popped p2 to_local)
     end) /\
  LocalBeaconServer.register_paths_round leaf s =
    (let p1 := terminated leaf p in
     let p2 := remove_signatures p1 in
     let up := local_record ps (leaf_info leaf PIT_UP p) p1 in
     match ifid2addr leaf !! reverse_first_hop p2 with
     | Some next_hop =>
         while_popleft (length rest) reg_queue_popleft
           (LocalBeaconServer.register_one leaf)
           (registered popped p2
              [up; origin_record leaf (leaf_info leaf PIT_DOWN p) p2 next_hop])
     | None => Raised KeyError (registered popped p2 [up])
     end).
Proof.
  intros Hq Hp Hps popped. split.
  - unfold CoreBeaconServer.register_paths_round.
    rewrite (registration_loop_step _ s r rest Hq). fold popped.
    rewrite (core_register_one_spec core popped r p) by exact Hp.
    cbv zeta. unfold local_registration.
    destruct (ifid2addr core !! _); reflexivity.
  - unfold LocalBeaconServer.register_paths_round.
    rewrite (registration_loop_step _ s r rest Hq). fold popped.
    rewrite (local_register_one_spec leaf popped r p) by exact Hp.
    cbv zeta. rewrite Hps.
    destruct (ifid2addr leaf !! _); reflexivity.
Qed.

(** C7, as the code has it: on a leaf server with a path server, the
    registration of a queued beacon of contents [p] first sends, to the
    path server's address, an UP record carrying [p] with its signatures
    and the marking that ends the path here (from the ROTField interface
    to interface 0).  Only then, and only when the interface table has the
    first interface of the reversed path, it sends to that interface's
    next hop a DOWN record for the same ISDs and ADs, carrying that beacon
    stripped of its signatures and the reversed path, and returns; when
    the table has no such entry the lookup raises [KeyError] after the UP
    record and no DOWN record is sent.  Source and destination ISD are the
    server's own, the source AD is that of the beacon's first marking, the
    destination AD the server's own.  The queued object is not modified. *)
Theorem leaf_registers_up_then_down
  (self : SCIONElement) (s : State) (r : ref) (p : HalfPathBeacon)
  (ps : ServerElement) :
  heap s !! r = Some p ->
  servers (topology self) !! PATH_SERVER = Some ps ->
  let p1 := terminated self p in
  let p2 := remove_signatures p1 in
  let info kind :=
    mkPathInfo kind (isd_id (topology self)) (isd_id (topology self))
      (ad_id (origin_marking self p)) (topo_ad_id (topology self)) in
  let up :=
    (PathRecordsPacket (s_addr ps) (info PIT_UP) [p1] None, s_addr ps) in
  LocalBeaconServer.register_one self r s =
    match
      ifid2addr self !! ingress_if (get_first_hop_of (get_path p2 true))
    with
    | Some next_hop =>
        Returned tt
          (registered s p2
             [up;
              (PathRecordsPacket (addr self) (info PIT_DOWN) [p2]
                 (Some (get_path p2 true)), next_hop)])
    | None => Raised KeyError (registered s p2 [up])
    end /\
  heap (final_state (LocalBeaconServer.register_one self r s)) !! r
    = Some p /\
  get_first_ad p1 = Some (origin_marking self p) /\
  (exists m : ADMarking,
     ads p1 = ads p ++ [m] /\
     hof (pcbm m) = mkHopOpaqueField (if_id (rotf p)) 0) /\
  map pcbm (ads p2) = map pcbm (ads p1) /\
  Forall (fun ad => sig ad = []) (ads p2).
Proof.
  intros Hp Hps p1 p2 info up.
  assert (LocalBeaconServer.register_one self r s =
          match
            ifid2addr self !! ingress_if (get_first_hop_of (get_path p2 true))
          with
          | Some next_hop =>
              Returned tt
                (registered s p2
                   [up;
                    (PathRecordsPacket (addr self) (info PIT_DOWN) [p2]
                       (Some (get_path p2 true)), next_hop)])
          | None => Raised KeyError (registered s p2 [up])
          end) as Hrun.
  { rewrite (local_register_one_spec self s r p Hp). cbv zeta.
    rewrite Hps. fold p1 p2. unfold reverse_first_hop.
    destruct (ifid2addr self !! _); reflexivity. }
  split; [exact Hrun|].
  split.
  { rewrite Hrun.
    destruct (ifid2addr self !! _); unfold registered; simpl;
      now apply lookup_app_l_Some. }
  split; [apply get_first_ad_terminated|].
  split.
  { exists (BeaconServer._create_ad_marking self (if_id (rotf p)) 0).
    split; [reflexivity|]. apply (create_ad_marking_fields self). }
  split; apply (remove_signatures_layout p1).
Qed.

End RegistrationTargets.

(** ** The properties on the example servers *)

(** C2 fails as stated: on a core server without an interface table
    entry for the reversed path's first hop, the registration round raises
    [KeyError] on the first queued beacon; nothing is sent, and the second
    beacon is still in the queue. *)
Lemma registration_raises_on_unknown_next_hop :
  (exists s' : State,
     @CoreBeaconServer.register_paths_round HopListLib
       example_core_bare example_core_state = Raised KeyError s' /\
     reg_queue s' = [1%nat] /\ sent s' = []) /\
  ~ (exists s' : State,
       @CoreBeaconServer.register_paths_round HopListLib
         example_core_bare example_core_state = Returned tt s').
Proof.
  split.
  - eexists. split; [vm_compute; reflexivity|]. split; reflexivity.
  - intros [s' Hs']. vm_compute in Hs'. discriminate.
Qed.

(** C2 on the example servers, both with an empty interface table: the
    core server, which has no path server, sends nothing and raises; the
    leaf server sends its UP record and raises. *)
Lemma registration_target_unavailable_witness :
  reg_queue example_leaf_state = [0%nat; 1%nat] /\
  heap example_leaf_state !! 0%nat = Some (example_beacon 3) /\
  servers (topology example_leaf_bare) !! PATH_SERVER = Some (mkServer 900) /\
  (exists s1 s2 : State,
     @CoreBeaconServer.register_paths_round HopListLib
       example_core_bare example_leaf_state = Raised KeyError s1 /\
     sent s1 = [] /\ reg_queue s1 = [1%nat] /\
     @LocalBeaconServer.register_paths_round HopListLib
       example_leaf_bare example_leaf_state = Raised KeyError s2 /\
     length (sent s2) = 1%nat /\ reg_queue s2 = [1%nat]).
Proof.
  split; [reflexivity|]. split; [reflexivity|]. split; [reflexivity|].
  destruct (@registration_target_unavailable HopListLib
              example_core_bare example_leaf_bare example_leaf_state
              0%nat [1%nat] (example_beacon 3) (mkServer 900)
              eq_refl eq_refl eq_refl) as [Hcore Hleaf].
  eexists. eexists.
  split; [rewrite Hcore; vm_compute; reflexivity|].
  split; [reflexivity|]. split; [reflexivity|].
  split; [rewrite Hleaf; vm_compute; reflexivity|].
  split; reflexivity.
Defined.

(** C3 on the core server of AD 5 in ISD 1: the beacon whose second of
    three markings is that of AD 5 is dropped. *)
Lemma core_process_pcb_loop_prevention_witness :
  heap example_inbound_state !! 0%nat = Some example_looped_beacon /\
  @CoreBeaconServer.process_pcb HopListLib example_core 0%nat
    example_inbound_state = Returned tt example_inbound_state.
Proof.
  split; [reflexivity|].
  apply (@core_process_pcb_loop_prevention HopListLib example_core
           example_inbound_state 0%nat example_looped_beacon eq_refl).
  exists [example_marking 1 3 0 2], (example_marking 1 5 1 2),
    [example_marking 1 7 1 2].
  split; [reflexivity|]. split; reflexivity.
Defined.

(** C10 on the same server: the beacon that names AD 5 of ISD 1 in a peer
    marking only is enqueued. *)
Lemma core_filter_reads_pcbm_only_witness :
  heap example_inbound_state !! 1%nat = Some example_peered_beacon /\
  @CoreBeaconServer.process_pcb HopListLib example_core 1%nat
    example_inbound_state = Returned tt (enqueued 1%nat example_inbound_state).
Proof.
  split; [reflexivity|].
  apply (@core_filter_reads_pcbm_only HopListLib example_core
           example_inbound_state 1%nat example_peered_beacon eq_refl).
  repeat constructor; intros [_ Had]; discriminate.
Defined.

(** C4 on the example core server: one child router, two core routers. *)
Lemma propagation_copies_are_independent_witness :
  heap example_core_state !! 0%nat = Some (example_beacon 12) /\
  @fan_out_of HopListLib example_core 0%nat (example_beacon 12)
    (routers (topology example_core) CHILD) example_core_state
    (@BeaconServer.propagate_downstream_pcb HopListLib example_core 0%nat
       example_core_state) /\
  @fan_out_of HopListLib example_core 0%nat (example_beacon 12)
    (routers (topology example_core) ROUTING) example_core_state
    (@CoreBeaconServer.propagate_core_pcb HopListLib example_core 0%nat
       example_core_state).
Proof.
  split; [reflexivity|].
  apply (@propagation_copies_are_independent HopListLib example_core
           example_core_state 0%nat (example_beacon 12) eq_refl).
Defined.

Lemma example_core_state_ok :
  @queue_ok (heap example_core_state) (beacons example_core_state).
Proof. repeat constructor; eexists; reflexivity. Defined.

(** C6 on the example core server, with two beacons queued. *)
Lemma core_round_propagates_witness :
  exists s' : State,
    @CoreBeaconServer.handle_pcbs_propagation_round HopListLib example_core 1
      example_core_state = Returned tt s' /\
    sent s' =
      sent example_core_state
        ++ @origination HopListLib example_core 1
             (routers (topology example_core) CHILD)
        ++ @origination HopListLib example_core 1
             (routers (topology example_core) ROUTING)
        ++ @forwarded_packets HopListLib example_core
             (routers (topology example_core) ROUTING)
             (heap example_core_state) (beacons example_core_state) /\
    beacons s' = [] /\
    reg_queue s' = reg_queue example_core_state ++ beacons example_core_state /\
    Forall (fun r => heap s' !! r = heap example_core_state !! r)
      (beacons example_core_state).
Proof.
  apply (@core_round_propagates HopListLib example_core 1 example_core_state
           example_core_state_ok).
Defined.

(** C8 on the example core server. *)
Lemma core_round_same_timestamp_witness :
  exists (s' : State) (downstream_pcb core_pcb : HalfPathBeacon),
    @CoreBeaconServer.handle_pcbs_propagation_round HopListLib example_core 1
      example_core_state = Returned tt s' /\
    heap s' !! length (heap example_core_state) = Some downstream_pcb /\
    heap s' !! (length (heap example_core_state) + 1
                + length (routers (topology example_core) CHILD))%nat
      = Some core_pcb /\
    iof_timestamp (iof downstream_pcb) = CoreBeaconServer.timestamp 1 /\
    iof_timestamp (iof core_pcb) = iof_timestamp (iof downstream_pcb) /\
    Forall
      (fun x => packet_timestamp x = Some (CoreBeaconServer.timestamp 1))
      (take (length (routers (topology example_core) CHILD)
             + length (routers (topology example_core) ROUTING))
         (drop (length (sent example_core_state)) (sent s'))).
Proof.
  apply (@core_round_same_timestamp HopListLib example_core 1
           example_core_state example_core_state_ok).
Defined.

(** C7 fails as stated: on the leaf server with an empty interface
    table the registration of the first queued beacon sends the UP record
    to the path server at 900 and then raises [KeyError]; no DOWN record
    is sent. *)
Lemma leaf_registration_sends_up_only :
  (exists s' : State,
     @LocalBeaconServer.register_one HopListLib example_leaf_bare 0%nat
       example_leaf_state = Raised KeyError s' /\
     map (fun x => (packet_kind x, snd x)) (sent s')
       = [(Some PIT_UP, 900)]) /\
  ~ (exists s' : State,
       @LocalBeaconServer.register_one HopListLib example_leaf_bare 0%nat
         example_leaf_state = Returned tt s').
Proof.
  split.
  - eexists. split; [vm_compute; reflexivity|]. reflexivity.
  - intros [s' Hs']. vm_compute in Hs'. discriminate.
Qed.

(** C7 on the example leaf server: the UP record goes to the path server
    at 900, then the DOWN record to the parent router at 301. *)
Lemma leaf_registers_up_then_down_witness :
  heap example_leaf_state !! 0%nat = Some (example_beacon 3) /\
  servers (topology example_leaf) !! PATH_SERVER = Some (mkServer 900) /\
  exists s' : State,
    @LocalBeaconServer.register_one HopListLib example_leaf 0%nat
      example_leaf_state = Returned tt s' /\
    map (fun x => (packet_kind x, snd x)) (sent s')
      = [(Some PIT_UP, 900); (Some PIT_DOWN, 301)].
Proof.
  split; [reflexivity|]. split; [reflexivity|].
  destruct (@leaf_registers_up_then_down HopListLib example_leaf
              example_leaf_state 0%nat (example_beacon 3) (mkServer 900)
              eq_refl eq_refl) as [Hrun _].
  eexists. split; [exact Hrun|]. reflexivity.
Defined.

(** The signed region on the example servers: no peer, one peer, and the
    sum over two peers. *)
Example block_size_without_peers :
  block_size (ssf (pcbm (@BeaconServer._create_ad_marking HopListLib
                           example_leaf 3 0))) = 32.
Proof. reflexivity. Qed.

Example block_size_with_one_peer :
  block_size (ssf (pcbm (@BeaconServer._create_ad_marking HopListLib
                           example_core 12 0))) = 32 + 24.
Proof. reflexivity. Qed.

Example block_size_with_two_peers :
  block_size
    (ssf (pcbm (@BeaconServer._create_ad_marking HopListLib
                  (mkSCIONElement 50
                     (mkTopology true 1 5
                        (fun category =>
                           match category with
                           | PEER => [mkRouter 104 (mkInterface 14 6);
                                      mkRouter 105 (mkInterface 15 4)]
                           | _ => []
                           end) ∅)
                     (mkConfig 5 5 true) ∅)
                  12 0))) = 32 + 24 + 24.
Proof. reflexivity. Qed.

(** A leaf server with one child and a path server: after a propagation
    round the child got each queued beacon with one more marking, from the
    interface it arrived on to the child's interface; a queued beacon is
    then registered UP with the path server and DOWN towards the parent. *)
Example leaf_round_sends_to_child :
  exists s' : State,
    @BeaconServer.handle_pcbs_propagation_round HopListLib example_leaf
      example_leaf_state = Returned tt s' /\
    map (fun x => snd x) (sent s') = [302; 302] /\
    beacons s' = [] /\
    reg_queue s' = [0%nat; 1%nat; 0%nat; 1%nat] /\
    map (fun q => map (fun ad => hof (pcbm ad)) (ads q)) (drop 2 (heap s')) =
      [[mkHopOpaqueField 0 2; mkHopOpaqueField 3 4];
       [mkHopOpaqueField 0 2; mkHopOpaqueField 3 4]].
Proof.
  eexists. split; [vm_compute; reflexivity|]. repeat split.
Qed.

Example leaf_registration_kinds :
  exists s' : State,
    @LocalBeaconServer.register_paths_round HopListLib example_leaf
      example_leaf_state = Returned tt s' /\
    map (fun x => match fst x with
                  | PathRecordsPacket _ info pcbs _ =>
                      Some (pi_type info, snd x,
                            map (fun q => map sig (ads q)) pcbs)
                  | BeaconPacket _ _ => None
                  end) (sent s') =
      [Some (PIT_UP, 900, [[[170; 187]; []]]);
       Some (PIT_DOWN, 301, [[[]; []]]);
       Some (PIT_UP, 900, [[[170; 187]; []]]);
       Some (PIT_DOWN, 301, [[[]; []]])] /\
    reg_queue s' = [].
Proof.
  eexists. split; [vm_compute; reflexivity|]. repeat split.
Qed.


(** * Further properties of the server *)

(** ** The timestamp as a function of the clock *)

(** X2: the timestamp repeats every 4 * 2^16 = 262144 seconds of the
    clock. *)
Theorem timestamp_periodic (now k : Z) :
  CoreBeaconServer.timestamp (now + k * 262144) =
  CoreBeaconServer.timestamp now.
Proof.
  rewrite !timestamp_quarters. f_equal.
  replace (now + k * 262144 + 86400) with (now + 86400 + k * 262144) by lia.
  apply Z_mod_plus_full.
Qed.

(** X3: between two wrap-arounds the timestamp grows with the clock, by a
    quarter a second: two clock readings of one 262144-second window of
    the expiry time never get the same timestamp. *)
Theorem timestamp_increasing_in_window (now now' : Z) :
  (now + 86400) / 262144 = (now' + 86400) / 262144 ->
  now < now' ->
  (CoreBeaconServer.timestamp now < CoreBeaconServer.timestamp now')%Q /\
  (CoreBeaconServer.timestamp now' - CoreBeaconServer.timestamp now
   == (now' - now) # 4)%Q.
Proof.
  intros Hwin Hlt. rewrite !timestamp_quarters.
  pose proof (Z_div_mod_eq_full (now + 86400) 262144) as H1.
  pose proof (Z_div_mod_eq_full (now' + 86400) 262144) as H2.
  rewrite Hwin in H1.
  set (m := (now + 86400) mod 262144) in *.
  set (m' := (now' + 86400) mod 262144) in *.
  split.
  - unfold Qlt; simpl. lia.
  - unfold Qeq, Qminus, Qplus, Qopp; simpl. lia.
Qed.

Lemma timestamp_increasing_in_window_witness :
  (CoreBeaconServer.timestamp 1420070401
   < CoreBeaconServer.timestamp 1420070402)%Q /\
  (CoreBeaconServer.timestamp 1420070402
   - CoreBeaconServer.timestamp 1420070401 == 1 # 4)%Q.
Proof.
  apply (timestamp_increasing_in_window 1420070401 1420070402);
    [reflexivity | lia].
Defined.

(** X4: the timestamp is a whole number exactly when the clock reading is
    a multiple of the 4-second quantum. *)
Theorem timestamp_whole_on_quantum (now : Z) :
  is_integer (CoreBeaconServer.timestamp now) <-> (4 | now).
Proof.
  rewrite timestamp_integer_iff. split.
  - intros Hmod. exists (now / 4).
    pose proof (Z_div_mod_eq_full now 4). lia.
  - intros [q ->]. apply Z_mod_mult.
Qed.

(** ** Propagation on a leaf server, and idle rounds *)

Section LeafPropagation.
Context `{PacketLib} (self : SCIONElement).

Lemma forwarded_packets_length (neighbors : list RouterElement)
  (h : list HalfPathBeacon) (q : list ref) :
  queue_ok h q ->
  length (forwarded_packets self neighbors h q)
  = (length q * length neighbors)%nat.
Proof.
  unfold forwarded_packets.
  induction 1 as [|r q [p Hp] _ IH]; simpl; [reflexivity|].
  rewrite length_app, IH, Hp, length_map. reflexivity.
Qed.

Lemma forwarded_objects_length (neighbors : list RouterElement)
  (h : list HalfPathBeacon) (q : list ref) :
  queue_ok h q ->
  length (forwarded_objects self neighbors h q)
  = (length q * length neighbors)%nat.
Proof.
  unfold forwarded_objects.
  induction 1 as [|r q [p Hp] _ IH]; simpl; [reflexivity|].
  rewrite length_app, IH, Hp, length_map. reflexivity.
Qed.

Lemma local_round_idle (s : State) :
  beacons s = [] ->
  BeaconServer.handle_pcbs_propagation_round self s = Returned tt s.
Proof.
  intros Hq.
  assert (queue_ok (heap s) (beacons s)) as Hok
    by (rewrite Hq; constructor).
  rewrite (local_round_spec self s Hok). f_equal.
  unfold drained, forwarded_objects, forwarded_packets.
  rewrite Hq; simpl. rewrite !app_nil_r. destruct s; simpl in *; now subst.
Qed.

(** X5: a round of a leaf server's propagation loop returns, having sent
    every beacon of the inbound queue, in queue order, to the CHILD
    routers and to no other, one packet per beacon and child; it
    originates nothing; the inbound queue is empty afterwards and its
    beacons have joined the registration queue, unchanged. *)
Theorem leaf_round_propagates (s : State) :
  queue_ok (heap s) (beacons s) ->
  exists s' : State,
    BeaconServer.handle_pcbs_propagation_round self s = Returned tt s' /\
    sent s' =
      sent s ++ forwarded_packets self (routers (topology self) CHILD)
                  (heap s) (beacons s) /\
    length (sent s') =
      (length (sent s)
       + length (beacons s) * length (routers (topology self) CHILD))%nat /\
    beacons s' = [] /\
    reg_queue s' = reg_queue s ++ beacons s /\
    Forall (fun r => heap s' !! r = heap s !! r) (beacons s).
Proof.
  intros Hok. exists (drained self (routers (topology self) CHILD) s).
  split; [now apply local_round_spec|].
  unfold drained; simpl.
  split; [reflexivity|].
  split; [now rewrite length_app, forwarded_packets_length|].
  split; [reflexivity|]. split; [reflexivity|].
  eapply Forall_impl; [exact Hok|]. intros r [v Hv]; simpl.
  rewrite Hv. now apply lookup_app_l_Some.
Qed.

(** X6: with an empty inbound queue, a round of a leaf server changes
    nothing, while a round of a core server still sends its two new
    beacons, one packet to each CHILD and each ROUTING router. *)
Theorem idle_rounds (now : Z) (s : State) :
  beacons s = [] ->
  BeaconServer.handle_pcbs_propagation_round self s = Returned tt s /\
  exists s' : State,
    CoreBeaconServer.handle_pcbs_propagation_round self now s
      = Returned tt s' /\
    sent s' =
      sent s ++ origination self now (routers (topology self) CHILD)
             ++ origination self now (routers (topology self) ROUTING) /\
    length (sent s') =
      (length (sent s) + length (routers (topology self) CHILD)
       + length (routers (topology self) ROUTING))%nat /\
    beacons s' = [] /\ reg_queue s' = reg_queue s.
Proof.
  intros Hq.
  assert (queue_ok (heap s) (beacons s)) as Hok
    by (rewrite Hq; constructor).
  split; [now apply local_round_idle|].
  exists (core_round_state self now s).
  {
    split; [now apply core_round_spec|].
    unfold core_round_state, forwarded_packets, origination; simpl.
    rewrite Hq; simpl. rewrite !app_nil_r.
    split; [reflexivity|].
    split; [rewrite !length_app, !length_map; lia|].
    split; reflexivity. }
Qed.

(** X7: a leaf server forwards a queued beacon once: a second propagation
    round right after the first finds the inbound queue empty and adds
    nothing. *)
Theorem leaf_round_twice (s : State) :
  queue_ok (heap s) (beacons s) ->
  (BeaconServer.handle_pcbs_propagation_round self ;>
   BeaconServer.handle_pcbs_propagation_round self) s =
  BeaconServer.handle_pcbs_propagation_round self s.
Proof.
  intros Hok. unfold bind. rewrite (local_round_spec self s Hok).
  now apply local_round_idle.
Qed.

End LeafPropagation.

(** ** From acceptance to propagation *)

Section AcceptThenPropagate.
Context `{PacketLib} (self : SCIONElement).

Lemma accept_all_local_spec (arrivals : list ref) :
  forall s : State,
    accept_all Local self arrivals s =
    Returned tt
      (mkState (beacons s ++ arrivals) (reg_queue s) (heap s) (sent s)).
Proof.
  induction arrivals as [|r rest IH]; intros s; simpl.
  - unfold ret. rewrite app_nil_r. now destruct s.
  - unfold bind, BeaconServer.process_pcb, beacons_append.
    rewrite IH; simpl. now rewrite <- app_assoc.
Qed.

Lemma accept_all_core_spec (arrivals : list ref) :
  forall s : State,
    queue_ok (heap s) arrivals ->
    accept_all Core self arrivals s =
    Returned tt
      (mkState (beacons s ++ accepted self (heap s) arrivals)
         (reg_queue s) (heap s) (sent s)).
Proof.
  induction arrivals as [|r rest IH]; intros s Hok; simpl.
  - unfold ret. rewrite app_nil_r. now destruct s.
  - inversion Hok as [|? ? [p Hp] Hrest]; subst.
    unfold bind at 1. unfold CoreBeaconServer.process_pcb, bind at 1.
    rewrite (deref_ok _ _ _ Hp). unfold unseen. rewrite Hp.
    destruct (CoreBeaconServer.already_seen self (ads p)); simpl.
    + now apply IH.
    + unfold beacons_append. rewrite IH by assumption. simpl.
      now rewrite <- app_assoc.
Qed.

Lemma accepted_ok (h : list HalfPathBeacon) (arrivals : list ref) :
  queue_ok h arrivals -> queue_ok h (accepted self h arrivals).
Proof.
  unfold queue_ok, accepted. rewrite !Forall_forall.
  intros Hok r Hr. apply Hok.
  apply list_elem_of_In in Hr. apply filter_In in Hr.
  apply list_elem_of_In. tauto.
Qed.

(** X8: beacons a leaf server accepts are all forwarded by its next
    propagation round, after those already queued and in the order they
    arrived, and they reach the registration queue in that order. *)
Theorem leaf_forwards_in_arrival_order (arrivals : list ref) (s : State) :
  queue_ok (heap s) (beacons s) ->
  queue_ok (heap s) arrivals ->
  exists s' : State,
    (accept_all Local self arrivals ;>
     BeaconServer.handle_pcbs_propagation_round self) s = Returned tt s' /\
    sent s' =
      sent s ++ forwarded_packets self (routers (topology self) CHILD)
                  (heap s) (beacons s ++ arrivals) /\
    beacons s' = [] /\
    reg_queue s' = reg_queue s ++ beacons s ++ arrivals.
Proof.
  intros Hq Harr. eexists. split.
  - unfold bind. rewrite accept_all_local_spec.
    apply local_round_spec. simpl. now apply Forall_app.
  - unfold drained; simpl. repeat split.
Qed.

(** X9: of the beacons offered to a core server, its next propagation
    round forwards to the ROUTING routers those that do not carry its own
    ISD and AD in a marking, in the order they arrived, and no other; only
    those reach the registration queue. *)
Theorem core_forwards_unseen_arrivals_only
  (now : Z) (arrivals : list ref) (s : State) :
  queue_ok (heap s) (beacons s) ->
  queue_ok (heap s) arrivals ->
  exists s' : State,
    (accept_all Core self arrivals ;>
     CoreBeaconServer.handle_pcbs_propagation_round self now) s
      = Returned tt s' /\
    sent s' =
      sent s
        ++ origination self now (routers (topology self) CHILD)
        ++ origination self now (routers (topology self) ROUTING)
        ++ forwarded_packets self (routers (topology self) ROUTING) (heap s)
             (beacons s ++ accepted self (heap s) arrivals) /\
    beacons s' = [] /\
    reg_queue s' = reg_queue s ++ beacons s ++ accepted self (heap s) arrivals.
Proof.
  intros Hq Harr. eexists. split.
  - unfold bind. rewrite accept_all_core_spec by assumption.
    apply core_round_spec. simpl. apply Forall_app. split; [assumption|].
    now apply accepted_ok.
  - unfold core_round_state; simpl. repeat split.
Qed.

End AcceptThenPropagate.

(** ** Registration rounds *)

Section RegistrationRounds.
Context `{PacketLib} (self : SCIONElement).

(** X10: on a core server with a path server and a known next hop, the
    registration of a queued beacon of contents [p] returns after two
    sends of a CORE record from the ISD and AD of the beacon's first
    marking to the server's own: to the path server's address, with [p]
    still signed and ended by the marking of this AD (from the ROTField
    interface to interface 0); to the next hop, with that beacon stripped
    of its signatures and its reversed path.  The queued object is not
    modified. *)
Theorem core_registers_with_local_and_origin
  (s : State) (r : ref) (p : HalfPathBeacon)
  (ps : ServerElement) (next_hop : HostAddr) :
  heap s !! r = Some p ->
  servers (topology self) !! PATH_SERVER = Some ps ->
  let p1 := terminated self p in
  let p2 := remove_signatures p1 in
  ifid2addr self !! ingress_if (get_first_hop_of (get_path p2 true))
    = Some next_hop ->
  let info :=
    mkPathInfo PIT_CORE
      (spcbf_isd_id (spcbf (origin_marking self p))) (isd_id (topology self))
      (ad_id (origin_marking self p)) (topo_ad_id (topology self)) in
  let s' :=
    registered s p2
      [(PathRecordsPacket (s_addr ps) info [p1] None, s_addr ps);
       (PathRecordsPacket (addr self) info [p2] (Some (get_path p2 true)),
        next_hop)] in
  CoreBeaconServer.register_one self r s = Returned tt s' /\
  heap s' !! r = Some p /\
  get_first_ad p1 = Some (origin_marking self p) /\
  (exists m : ADMarking,
     ads p1 = ads p ++ [m] /\ own_marking self m /\
     hof (pcbm m) = mkHopOpaqueField (if_id (rotf p)) 0) /\
  map pcbm (ads p2) = map pcbm (ads p1) /\
  Forall (fun ad => sig ad = []) (ads p2).
Proof.
  intros Hp Hps p1 p2 Hhop info s'.
  split.
  { rewrite (core_register_one_spec self s r p Hp). cbv zeta.
    fold p1 p2. unfold reverse_first_hop. rewrite Hhop.
    unfold local_registration. rewrite Hps. reflexivity. }
  split.
  { unfold s', registered; simpl. now apply lookup_app_l_Some. }
  split; [apply get_first_ad_terminated|].
  split.
  { exists (BeaconServer._create_ad_marking self (if_id (rotf p)) 0).
    pose proof (create_ad_marking_fields self (if_id (rotf p)) 0)
      as (Had & Hhof & Hspcbf & _).
    split; [reflexivity|]. split; [|exact Hhof].
    split; [now rewrite Hspcbf | exact Had]. }
  split; apply (remove_signatures_layout p1).
Qed.

(** X11: a leaf server whose topology has no path server raises
    [KeyError] on the first queued beacon, before anything is sent: the
    DOWN record is not attempted either, the beacon is gone from the
    queue, and the beacons behind it stay in the queue. *)
Theorem leaf_without_path_server_raises
  (s : State) (r : ref) (rest : list ref) (p : HalfPathBeacon) :
  reg_queue s = r :: rest ->
  heap s !! r = Some p ->
  servers (topology self) !! PATH_SERVER = None ->
  exists s' : State,
    LocalBeaconServer.register_paths_round self s = Raised KeyError s' /\
    sent s' = sent s /\ reg_queue s' = rest /\ beacons s' = beacons s /\
    heap s' = heap s ++ [terminated self p].
Proof.
  intros Hq Hp Hps. eexists. split.
  - unfold LocalBeaconServer.register_paths_round.
    rewrite (registration_loop_step _ s r rest Hq).
    rewrite (local_register_one_spec self _ r p) by exact Hp.
    cbv zeta. rewrite Hps. reflexivity.
  - unfold registered; simpl. rewrite app_nil_r. repeat split.
Qed.

(** With [registers_paths] off, [register_paths] returns at once on
    either kind of server, however many rounds it would have run: nothing
    is sent and the registration queue keeps its beacons. *)
Theorem registration_disabled_is_noop (n : nat) (s : State) :
  registers_paths (config self) = false ->
  CoreBeaconServer.register_paths self n s = Returned tt s /\
  LocalBeaconServer.register_paths self n s = Returned tt s.
Proof.
  intros Hoff.
  unfold CoreBeaconServer.register_paths, LocalBeaconServer.register_paths.
  rewrite Hoff. split; reflexivity.
Qed.

Lemma registrable_ok (h : list HalfPathBeacon) (q : list ref) :
  registrable self h q -> queue_ok h q.
Proof.
  unfold registrable, queue_ok. intros Hq.
  eapply Forall_impl; [exact Hq|]. intros r (p & Hp & _). now exists p.
Qed.

Lemma stored_app (h ext : list HalfPathBeacon) (q : list ref) :
  queue_ok h q -> stored (h ++ ext) q = stored h q.
Proof.
  induction 1 as [|r q [p Hp] _ IH]; simpl; [reflexivity|].
  rewrite IH, (lookup_app_l_Some _ _ _ _ Hp), Hp. reflexivity.
Qed.

Lemma stored_length (h : list HalfPathBeacon) (q : list ref) :
  queue_ok h q -> length (stored h q) = length q.
Proof.
  induction 1 as [|r q [p Hp] _ IH]; simpl; [reflexivity|].
  rewrite Hp; simpl. now rewrite IH.
Qed.

Lemma registrable_app (h ext : list HalfPathBeacon) (q : list ref) :
  registrable self h q -> registrable self (h ++ ext) q.
Proof.
  unfold registrable. intros Hq.
  eapply Forall_impl; [exact Hq|]. intros r (p & Hp & Hhop).
  exists p. split; [now apply lookup_app_l_Some | assumption].
Qed.

(** The inner loop of a registration round, for a body that registers a
    beacon with [records] when it has a next hop: with fuel for every
    queued beacon it empties the registration queue. *)
Lemma registration_loop_spec (body : ref -> Exec unit)
  (records : HalfPathBeacon -> HostAddr -> list (Packet * HostAddr)) :
  (forall s r p next_hop,
     heap s !! r = Some p -> next_hop_of self p = Some next_hop ->
     body r s =
     Returned tt (registered s (registered_copy self p) (records p next_hop))) ->
  forall (q : list ref) (fuel : nat) (s : State),
    reg_queue s = q -> registrable self (heap s) q -> (length q <= fuel)%nat ->
    while_popleft fuel reg_queue_popleft body s =
    Returned tt (all_registered self records s).
Proof.
  intros Hbody. induction q as [|r rest IH]; intros fuel s Hq Hok Hfuel.
  - unfold all_registered, records_of. rewrite Hq. simpl.
    rewrite !app_nil_r.
    destruct fuel as [|fuel]; simpl.
    + unfold ret. destruct s; simpl in *; now subst.
    + unfold bind, reg_queue_popleft. rewrite Hq. unfold ret.
      destruct s; simpl in *; now subst.
  - destruct fuel as [|fuel]; [simpl in Hfuel; lia|].
    simpl in Hfuel. simpl while_popleft.
    unfold bind at 1. unfold reg_queue_popleft. rewrite Hq.
    inversion Hok as [|? ? (p & Hp & [next_hop Hhop]) Hrest]; subst.
    unfold bind at 1.
    rewrite (Hbody _ r p next_hop) by assumption.
    rewrite (IH fuel); simpl.
    + unfold all_registered, registered. simpl. rewrite Hq.
      unfold records_of.
      rewrite stored_app by (now apply registrable_ok).
      simpl. rewrite Hp. simpl. rewrite Hhop.
      rewrite <- !app_assoc. reflexivity.
    + reflexivity.
    + now apply registrable_app.
    + lia.
Qed.

Lemma records_of_length
  (records : HalfPathBeacon -> HostAddr -> list (Packet * HostAddr))
  (k : nat) (h : list HalfPathBeacon) (q : list ref) :
  (forall p next_hop, length (records p next_hop) = k) ->
  registrable self h q ->
  length (records_of self records h q) = (length q * k)%nat.
Proof.
  intros Hk. unfold records_of.
  induction 1 as [|r q (p & Hp & [next_hop Hhop]) _ IH]; simpl;
    [reflexivity|].
  rewrite Hp; simpl. rewrite Hhop, length_app, Hk, IH. reflexivity.
Qed.

Lemma leaf_round_spec (ps : ServerElement) (s : State) :
  servers (topology self) !! PATH_SERVER = Some ps ->
  registrable self (heap s) (reg_queue s) ->
  LocalBeaconServer.register_paths_round self s =
  Returned tt (all_registered self (leaf_records self ps) s).
Proof.
  intros Hps Hok. unfold LocalBeaconServer.register_paths_round.
  apply registration_loop_spec with (q := reg_queue s);
    [| reflexivity | assumption | lia].
  intros s0 r p next_hop Hp Hhop.
  rewrite (local_register_one_spec self s0 r p Hp). cbv zeta.
  rewrite Hps. unfold next_hop_of, registered_copy in Hhop.
  rewrite Hhop. reflexivity.
Qed.

Lemma core_registration_round_spec (s : State) :
  registrable self (heap s) (reg_queue s) ->
  CoreBeaconServer.register_paths_round self s =
  Returned tt (all_registered self (core_records self) s).
Proof.
  intros Hok. unfold CoreBeaconServer.register_paths_round.
  apply registration_loop_spec with (q := reg_queue s);
    [| reflexivity | assumption | lia].
  intros s0 r p next_hop Hp Hhop.
  rewrite (core_register_one_spec self s0 r p Hp). cbv zeta.
  unfold next_hop_of, registered_copy in Hhop.
  rewrite Hhop. reflexivity.
Qed.

(** X12: on a leaf server with a path server, when every queued beacon
    has a next hop towards its origin, a registration round returns with
    the registration queue empty, having sent for each beacon, in queue
    order, its UP record and then its DOWN record, two packets a beacon;
    the inbound queue and the queued objects are as before. *)
Theorem leaf_registration_round_drains (ps : ServerElement) (s : State) :
  servers (topology self) !! PATH_SERVER = Some ps ->
  registrable self (heap s) (reg_queue s) ->
  exists s' : State,
    LocalBeaconServer.register_paths_round self s = Returned tt s' /\
    reg_queue s' = [] /\ beacons s' = beacons s /\
    sent s' =
      sent s ++ records_of self (leaf_records self ps) (heap s) (reg_queue s) /\
    length (sent s') = (length (sent s) + length (reg_queue s) * 2)%nat /\
    Forall (fun r => heap s' !! r = heap s !! r) (reg_queue s).
Proof.
  intros Hps Hok. eexists.
  split; [now apply (leaf_round_spec ps)|].
  unfold all_registered; simpl.
  split; [reflexivity|]. split; [reflexivity|]. split; [reflexivity|].
  split.
  - rewrite length_app, (records_of_length _ 2%nat); auto.
  - eapply Forall_impl; [exact Hok|]. intros r (p & Hp & _); simpl.
    rewrite Hp. now apply lookup_app_l_Some.
Qed.

(** X13: on a core server, when every queued beacon has a next hop
    towards its origin, a registration round returns with the
    registration queue empty, having sent for each beacon, in queue order,
    the record for the local path server, if the topology has one, and
    then the record towards the origin. *)
Theorem core_registration_round_drains (s : State) :
  registrable self (heap s) (reg_queue s) ->
  exists s' : State,
    CoreBeaconServer.register_paths_round self s = Returned tt s' /\
    reg_queue s' = [] /\ beacons s' = beacons s /\
    sent s' =
      sent s ++ records_of self (core_records self) (heap s) (reg_queue s) /\
    length (sent s') =
      (length (sent s)
       + length (reg_queue s)
         * match servers (topology self) !! PATH_SERVER with
           | Some _ => 2
           | None => 1
           end)%nat /\
    Forall (fun r => heap s' !! r = heap s !! r) (reg_queue s).
Proof.
  intros Hok. eexists.
  split; [now apply core_registration_round_spec|].
  unfold all_registered; simpl.
  split; [reflexivity|]. split; [reflexivity|]. split; [reflexivity|].
  split.
  - rewrite length_app. f_equal. apply records_of_length; [|assumption].
    intros p next_hop. unfold core_records, local_registration.
    rewrite length_app.
    destruct (servers (topology self) !! PATH_SERVER); reflexivity.
  - eapply Forall_impl; [exact Hok|]. intros r (p & Hp & _); simpl.
    rewrite Hp. now apply lookup_app_l_Some.
Qed.

(** X14: a leaf server with a path server, from propagation to
    registration: when the beacons of both queues are in the store and
    the interface table has the first interface of the reversed path of
    each, a propagation round followed by a registration round
    returns with both queues empty; every beacon of the inbound queue was
    sent to every CHILD router, and every beacon of either queue was
    registered UP and DOWN, those already awaiting registration first. *)
Theorem leaf_propagates_then_registers (ps : ServerElement) (s : State) :
  servers (topology self) !! PATH_SERVER = Some ps ->
  registrable self (heap s) (reg_queue s ++ beacons s) ->
  exists s' : State,
    (BeaconServer.handle_pcbs_propagation_round self ;>
     LocalBeaconServer.register_paths_round self) s = Returned tt s' /\
    beacons s' = [] /\ reg_queue s' = [] /\
    sent s' =
      sent s
        ++ forwarded_packets self (routers (topology self) CHILD)
             (heap s) (beacons s)
        ++ records_of self (leaf_records self ps) (heap s)
             (reg_queue s ++ beacons s).
Proof.
  intros Hps Hok.
  assert (queue_ok (heap s) (reg_queue s ++ beacons s)) as Hvalid
    by now apply registrable_ok.
  assert (queue_ok (heap s) (beacons s)) as Hin
    by (apply Forall_app in Hvalid; tauto).
  eexists. split.
  - unfold bind. rewrite (local_round_spec self s Hin).
    apply (leaf_round_spec ps); [assumption|].
    unfold drained; simpl. now apply registrable_app.
  - unfold all_registered, drained, records_of; simpl.
    rewrite stored_app by assumption.
    split; [reflexivity|]. split; [reflexivity|].
    now rewrite <- app_assoc.
Qed.

End RegistrationRounds.

(** ** Dispatch *)

Section Dispatch.
Context `{PacketLib} (self : SCIONElement).

Lemma handle_request_spec (role : Role) (ptype : PacketType)
  (parsed : HalfPathBeacon) (s : State) :
  handle_request role self ptype parsed s =
  Returned tt
    match ptype with
    | BEACON =>
        match role with
        | Core =>
            if CoreBeaconServer.already_seen self (ads parsed)
            then parsed_into parsed s
            else enqueued (length (heap s)) (parsed_into parsed s)
        | Local => enqueued (length (heap s)) (parsed_into parsed s)
        end
    | _ => s
    end.
Proof.
  destruct ptype; try reflexivity.
  unfold handle_request, bind, alloc. fold (parsed_into parsed s).
  destruct role; simpl.
  - unfold CoreBeaconServer.process_pcb, bind, deref. simpl.
    rewrite lookup_snoc.
    destruct (CoreBeaconServer.already_seen self (ads parsed)); reflexivity.
  - reflexivity.
Qed.

(** X15: [handle_request] always returns.  A packet that is no beacon
    changes nothing.  A beacon packet never sends anything nor touches the
    registration queue or a stored beacon; on a leaf server the parsed
    beacon always joins the inbound queue, on a core server it joins the
    queue if and only if none of its markings carries the server's own
    ISD and AD. *)
Theorem handle_request_accepts (role : Role) (ptype : PacketType)
  (parsed : HalfPathBeacon) (s : State) :
  exists s' : State,
    handle_request role self ptype parsed s = Returned tt s' /\
    sent s' = sent s /\ reg_queue s' = reg_queue s /\
    store_extends (heap s) (heap s') /\
    match ptype with
    | BEACON =>
        heap s' = heap s ++ [parsed] /\
        beacons s' =
          match role with
          | Core =>
              if CoreBeaconServer.already_seen self (ads parsed)
              then beacons s
              else beacons s ++ [length (heap s)]
          | Local => beacons s ++ [length (heap s)]
          end
    | _ => s' = s
    end.
Proof.
  eexists. split; [apply handle_request_spec|].
  destruct ptype; try (repeat split; apply store_extends_refl).
  destruct role; [destruct (CoreBeaconServer.already_seen self (ads parsed))|];
    simpl; repeat split; now eexists.
Qed.

End Dispatch.

(** ** What holds in every state a server gets to *)

Section Invariants.
Context `{PacketLib} (self : SCIONElement).

Lemma unseen_app (h ext : list HalfPathBeacon) (r : ref) :
  is_Some (h !! r) -> unseen self (h ++ ext) r = unseen self h r.
Proof.
  intros [p Hp]. unfold unseen.
  now rewrite (lookup_app_l_Some _ _ _ _ Hp), Hp.
Qed.

Lemma create_ad_marking_own (ingress_if egress_if : Z) :
  own_marking self (BeaconServer._create_ad_marking self ingress_if egress_if).
Proof.
  pose proof (create_ad_marking_fields self ingress_if egress_if)
    as (Had & _ & Hspcbf & _).
  split; [now rewrite Hspcbf | exact Had].
Qed.

Lemma beacon_for_sent_ok (role : Role) (ingress_if : Z) (p : HalfPathBeacon)
  (router : RouterElement) :
  In router (targets self role) ->
  (role = Core -> CoreBeaconServer.already_seen self (ads p) = false) ->
  sent_ok self role (beacon_for self ingress_if p router).
Proof.
  intros Hin Hseen. unfold sent_ok, beacon_for; simpl. split.
  - exists router. repeat split. exact Hin.
  - exists (ads p),
      (BeaconServer._create_ad_marking self ingress_if
         (itf_if_id (interface router))).
    split; [reflexivity|]. split; [apply create_ad_marking_own|].
    intros Hrole. now apply already_seen_false, Hseen.
Qed.

Lemma fan_out_sent_ok (role : Role) (ingress_if : Z) (p : HalfPathBeacon)
  (neighbors : list RouterElement) :
  (forall router, In router neighbors -> In router (targets self role)) ->
  (role = Core -> CoreBeaconServer.already_seen self (ads p) = false) ->
  Forall (sent_ok self role) (map (beacon_for self ingress_if p) neighbors).
Proof.
  intros Hin Hseen. apply Forall_fmap, Forall_forall. intros router Hr.
  apply beacon_for_sent_ok; [|assumption].
  apply Hin. now apply list_elem_of_In.
Qed.

Lemma forwarded_packets_sent_ok (role : Role)
  (neighbors : list RouterElement) (h : list HalfPathBeacon) (q : list ref) :
  (forall router, In router neighbors -> In router (targets self role)) ->
  (role = Core -> Forall (fun r => unseen self h r = true) q) ->
  Forall (sent_ok self role) (forwarded_packets self neighbors h q).
Proof.
  intros Hin Hseen. unfold forwarded_packets.
  induction q as [|r q IH]; simpl; [constructor|].
  apply Forall_app. split.
  - destruct (h !! r) as [p|] eqn:Hp; [|constructor].
    apply fan_out_sent_ok; [assumption|].
    intros Hrole. specialize (Hseen Hrole).
    apply Forall_cons in Hseen as [Hr _]. unfold unseen in Hr.
    rewrite Hp in Hr. now apply negb_true_iff in Hr.
  - apply IH. intros Hrole. specialize (Hseen Hrole).
    now apply Forall_cons in Hseen as [_ Hq].
Qed.

Lemma origination_sent_ok (role : Role) (now : Z)
  (neighbors : list RouterElement) :
  (forall router, In router neighbors -> In router (targets self role)) ->
  Forall (sent_ok self role) (origination self now neighbors).
Proof.
  intros Hin. unfold origination. now apply fan_out_sent_ok.
Qed.

(** A propagation round from a state of the invariant returns, in a state
    of the invariant. *)
Lemma propagation_keeps_inv (role : Role) (now : Z) (s : State) :
  server_inv self role s ->
  exists s' : State,
    propagation_round role self now s = Returned tt s' /\
    beacons s' = [] /\ server_inv self role s'.
Proof.
  intros (Hb & Hr & Hseen & Hsent). destruct role; simpl.
  - exists (core_round_state self now s).
    split; [now apply core_round_spec|]. split; [reflexivity|].
    unfold server_inv, core_round_state; simpl.
    split; [constructor|].
    split; [apply queue_ok_app, Forall_app; now split|].
    split; [constructor|].
    apply Forall_app. split; [assumption|].
    apply Forall_app. split.
    { apply origination_sent_ok. intros router Hin; simpl.
      apply in_or_app. now left. }
    apply Forall_app. split.
    { apply origination_sent_ok. intros router Hin; simpl.
      apply in_or_app. now right. }
    apply forwarded_packets_sent_ok; [|assumption].
    intros router Hin; simpl. apply in_or_app. now right.
  - exists (drained self (routers (topology self) CHILD) s).
    split; [now apply local_round_spec|]. split; [reflexivity|].
    unfold server_inv, drained; simpl.
    split; [constructor|].
    split; [apply queue_ok_app, Forall_app; now split|].
    split; [constructor|].
    apply Forall_app. split; [assumption|].
    apply forwarded_packets_sent_ok; [|discriminate].
    intros router Hin; exact Hin.
Qed.

(** Handling a packet keeps the invariant. *)
Lemma receive_keeps_inv (role : Role) (ptype : PacketType)
  (parsed : HalfPathBeacon) (s : State) :
  server_inv self role s ->
  server_inv self role (final_state (handle_request role self ptype parsed s)).
Proof.
  intros (Hb & Hr & Hseen & Hsent). rewrite handle_request_spec. simpl.
  assert (server_inv self role (parsed_into parsed s)) as Hstored.
  { unfold server_inv, parsed_into; simpl.
    split; [now apply queue_ok_app|]. split; [now apply queue_ok_app|].
    split; [|assumption].
    intros Hrole. specialize (Hseen Hrole).
    apply Forall_forall. intros r Hin.
    rewrite unseen_app.
    - revert r Hin. now apply Forall_forall.
    - revert r Hin. now apply Forall_forall. }
  assert (CoreBeaconServer.already_seen self (ads parsed) = false \/
          role = Local ->
          server_inv self role
            (enqueued (length (heap s)) (parsed_into parsed s))) as Henq.
  { intros Hcase. destruct Hstored as (Hb' & Hr' & Hseen' & Hsent').
    unfold server_inv, enqueued, parsed_into in *; simpl in *.
    split.
    { apply Forall_app. split; [assumption|].
      repeat constructor. exists parsed. apply lookup_snoc. }
    split; [assumption|]. split; [|assumption].
    intros Hrole. apply Forall_app. split; [now apply Hseen'|].
    repeat constructor. unfold unseen. rewrite lookup_snoc.
    destruct Hcase as [-> | ->]; [reflexivity | discriminate]. }
  destruct ptype; try (repeat split; assumption).
  destruct role.
  - destruct (CoreBeaconServer.already_seen self (ads parsed)) eqn:Hs;
      [assumption | apply Henq; now left].
  - apply Henq. now right.
Qed.

Lemma registration_frame_refl (role : Role) (s : State) :
  registration_frame role s s.
Proof.
  split; [reflexivity|]. split; [apply store_extends_refl|].
  split; [now exists []|]. exists []. split; [now rewrite app_nil_r|].
  constructor.
Qed.

Lemma registration_frame_trans (role : Role) (s1 s2 s3 : State) :
  registration_frame role s1 s2 -> registration_frame role s2 s3 ->
  registration_frame role s1 s3.
Proof.
  intros (Hb1 & Hh1 & [d1 Hq1] & a1 & Hs1 & Ha1)
         (Hb2 & Hh2 & [d2 Hq2] & a2 & Hs2 & Ha2).
  split; [congruence|].
  split; [eapply store_extends_trans; eassumption|].
  split; [exists (d1 ++ d2); rewrite Hq1, Hq2; now rewrite app_assoc|].
  exists (a1 ++ a2). split; [rewrite Hs2, Hs1; now rewrite app_assoc|].
  now apply Forall_app.
Qed.

Lemma frames_ret {A : Type} (role : Role) (a : A) : frames role (ret a).
Proof. intros s. apply registration_frame_refl. Qed.

Lemma frames_bind {A B : Type} (role : Role) (m : Exec A) (k : A -> Exec B) :
  frames role m -> (forall a, frames role (k a)) -> frames role (bind m k).
Proof.
  intros Hm Hk s. unfold bind. specialize (Hm s).
  destruct (m s) as [a s1|e s1]; simpl in *; [|assumption].
  eapply registration_frame_trans; [exact Hm | apply Hk].
Qed.

Lemma frames_while (role : Role) (fuel : nat) (body : ref -> Exec unit) :
  (forall r, frames role (body r)) ->
  frames role (while_popleft fuel reg_queue_popleft body).
Proof.
  intros Hbody. induction fuel as [|fuel IH]; simpl.
  - apply frames_ret.
  - apply frames_bind.
    + intros s. unfold reg_queue_popleft.
      destruct (reg_queue s) as [|r q] eqn:Hq; simpl;
        [apply registration_frame_refl|].
      split; [reflexivity|]. split; [apply store_extends_refl|].
      split; [exists [r]; simpl; exact Hq|].
      exists []. split; [now rewrite app_nil_r | constructor].
    + intros [r|]; [|apply frames_ret].
      apply frames_bind; [apply Hbody | intros _; exact IH].
Qed.

Lemma frames_rounds (role : Role) (n : nat) (round : Exec unit) :
  frames role round -> frames role (rounds n round).
Proof.
  intros Hround. induction n as [|n IH]; simpl.
  - apply frames_ret.
  - apply frames_bind; [exact Hround | intros _; exact IH].
Qed.

Lemma registered_frame (role : Role) (s : State) (q : HalfPathBeacon)
  (added : list (Packet * HostAddr)) :
  Forall (fun x => exists kind, packet_kind x = Some kind /\
                                registers_kind role kind) added ->
  registration_frame role s (registered s q added).
Proof.
  intros Hadded. unfold registered.
  split; [reflexivity|]. split; [now eexists|].
  split; [now exists []|]. now exists added.
Qed.

Lemma core_register_one_frames (r : ref) :
  frames Core (CoreBeaconServer.register_one self r).
Proof.
  intros s. destruct (heap s !! r) as [p|] eqn:Hp.
  - rewrite (core_register_one_spec self s r p Hp). cbv zeta.
    assert (Forall (fun x => exists kind, packet_kind x = Some kind /\
                                          registers_kind Core kind)
              (local_registration self (core_info self p) (terminated self p)))
      as Hlocal.
    { unfold local_registration.
      destruct (servers (topology self) !! PATH_SERVER);
        repeat constructor. now exists PIT_CORE. }
    destruct (ifid2addr self !! _); simpl; apply registered_frame.
    + apply Forall_app. split; [assumption|].
      repeat constructor. now exists PIT_CORE.
    + assumption.
  - unfold CoreBeaconServer.register_one, bind, deepcopy, bind, deref.
    rewrite Hp. simpl. apply registration_frame_refl.
Qed.

Lemma local_register_one_frames (r : ref) :
  frames Local (LocalBeaconServer.register_one self r).
Proof.
  intros s. destruct (heap s !! r) as [p|] eqn:Hp.
  - rewrite (local_register_one_spec self s r p Hp). cbv zeta.
    destruct (servers (topology self) !! PATH_SERVER);
      [destruct (ifid2addr self !! _)|]; simpl; apply registered_frame;
      repeat constructor; try (now exists PIT_UP); now exists PIT_DOWN.
  - unfold LocalBeaconServer.register_one, bind, deepcopy, bind, deref.
    rewrite Hp. simpl. apply registration_frame_refl.
Qed.

Lemma register_paths_frames (role : Role) (n : nat) (s : State) :
  registration_frame role s (final_state (register_paths role self n s)) /\
  (registers_paths (config self) = false ->
   final_state (register_paths role self n s) = s).
Proof.
  destruct role; simpl;
    unfold CoreBeaconServer.register_paths, LocalBeaconServer.register_paths;
    destruct (registers_paths (config self)); simpl.
  - split; [|discriminate]. apply frames_rounds. intros s0.
    unfold CoreBeaconServer.register_paths_round.
    apply frames_while, core_register_one_frames.
  - split; [apply registration_frame_refl | reflexivity].
  - split; [|discriminate]. apply frames_rounds. intros s0.
    unfold LocalBeaconServer.register_paths_round.
    apply frames_while, local_register_one_frames.
  - split; [apply registration_frame_refl | reflexivity].
Qed.

(** Registration keeps the invariant, returning or raising. *)
Lemma registration_keeps_inv (role : Role) (n : nat) (s : State) :
  server_inv self role s ->
  server_inv self role (final_state (register_paths role self n s)).
Proof.
  intros Hinv.
  destruct (register_paths_frames role n s) as [Hframe Hoff].
  destruct (registers_paths (config self)) eqn:Hflag;
    [|now rewrite Hoff].
  destruct Hinv as (Hb & Hr & Hseen & Hsent).
  destruct Hframe as (Hb' & [ext Hh'] & [done Hq'] & added & Hs' & Hadded).
  set (s' := final_state (register_paths role self n s)) in *.
  unfold server_inv. rewrite Hb', Hh', Hs'.
  split; [now apply queue_ok_app|].
  split.
  { apply queue_ok_app. unfold queue_ok in *. rewrite Hq' in Hr.
    now apply Forall_app in Hr as [_ Hr]. }
  split.
  { intros Hrole. specialize (Hseen Hrole).
    apply Forall_forall. intros r Hin. rewrite unseen_app.
    - revert r Hin. now apply Forall_forall.
    - revert r Hin. now apply Forall_forall. }
  apply Forall_app. split; [assumption|].
  eapply Forall_impl; [exact Hadded|].
  intros [pkt dst] (kind & Hkind & Hrole). unfold sent_ok, packet_kind in *.
  simpl in *. destruct pkt; [discriminate|].
  injection Hkind as <-. now split.
Qed.

Lemma server_inv_start (role : Role) : server_inv self role initial_state.
Proof. repeat split; constructor. Qed.

Lemma reachable_inv (role : Role) (s : State) :
  reachable role self s -> server_inv self role s.
Proof.
  induction 1 as [|s s' _ IH Hstep]; [apply server_inv_start|].
  destruct Hstep as [s ptype parsed | s now | s n].
  - now apply receive_keeps_inv.
  - destruct (propagation_keeps_inv role now s IH) as (s' & -> & _ & Hinv).
    exact Hinv.
  - now apply registration_keeps_inv.
Qed.

End Invariants.

(** ** Safety of a running server *)

Section Safety.
Context `{PacketLib} (self : SCIONElement).

(** X16: whatever packets a core server handled and whatever rounds it
    ran, every beacon it has sent went to one of its CHILD or ROUTING
    routers, with that router's interface in the ROTField, and goes
    through this AD once, in its last marking: a core server never sends
    on a beacon that has been here before.  Every path record it has sent
    is a CORE record. *)
Theorem core_sends_loop_free_beacons (s : State) :
  reachable Core self s ->
  Forall
    (fun x =>
       match fst x with
       | BeaconPacket _ q =>
           visits_once self q /\
           beacon_to_one_of
             (routers (topology self) CHILD ++ routers (topology self) ROUTING)
             x
       | PathRecordsPacket _ info _ _ => pi_type info = PIT_CORE
       end)
    (sent s).
Proof.
  intros Hreach. apply reachable_inv in Hreach as (_ & _ & _ & Hsent).
  eapply Forall_impl; [exact Hsent|].
  intros [pkt dst]. unfold sent_ok; simpl. destruct pkt as [d q|d info l o].
  - intros [(router & Hin & -> & Hsnd & Hrotf) (pre & m & Hads & Hown & Hpre)].
    simpl in Hsnd. subst dst. split.
    + exists pre, m. split; [exact Hads|]. split; [exact Hown|].
      now apply Hpre.
    + exists router. split; [exact Hin|]. now exists q.
  - intros [_ Hkind]. simpl in Hkind.
    destruct (pi_type info); simpl in Hkind; tauto.
Qed.

(** X17: whatever packets a leaf server handled and whatever rounds it
    ran, every beacon it has sent went to one of its CHILD routers, never
    to a parent, peer or core router, and ends with the marking of this
    AD; every path record it has sent is an UP or a DOWN record. *)
Theorem leaf_sends_downstream_only (s : State) :
  reachable Local self s ->
  Forall
    (fun x =>
       match fst x with
       | BeaconPacket _ q =>
           beacon_to_one_of (routers (topology self) CHILD) x /\
           exists (pre : list ADMarking) (m : ADMarking),
             ads q = pre ++ [m] /\ own_marking self m
       | PathRecordsPacket _ info _ _ =>
           pi_type info = PIT_UP \/ pi_type info = PIT_DOWN
       end)
    (sent s).
Proof.
  intros Hreach. apply reachable_inv in Hreach as (_ & _ & _ & Hsent).
  eapply Forall_impl; [exact Hsent|].
  intros [pkt dst]. unfold sent_ok; simpl. destruct pkt as [d q|d info l o].
  - intros [(router & Hin & -> & Hsnd & Hrotf) (pre & m & Hads & Hown & _)].
    simpl in Hsnd. subst dst. split.
    + exists router. split; [exact Hin|]. now exists q.
    + now exists pre, m.
  - intros [_ Hkind]. simpl in Hkind.
    destruct (pi_type info); simpl in Hkind; tauto.
Qed.

(** X18: in every state a server of either kind gets to, a propagation
    round returns: it raises nothing, leaves the inbound queue empty, and
    the state it ends in is again one the server gets to. *)
Theorem propagation_never_raises (role : Role) (now : Z) (s : State) :
  reachable role self s ->
  exists s' : State,
    propagation_round role self now s = Returned tt s' /\
    beacons s' = [] /\ reachable role self s'.
Proof.
  intros Hreach.
  destruct (propagation_keeps_inv self role now s (reachable_inv self role s Hreach))
    as (s' & Hrun & Hempty & _).
  exists s'. split; [exact Hrun|]. split; [exact Hempty|].
  replace s' with (final_state (propagation_round role self now s))
    by now rewrite Hrun.
  eapply reachable_step; [exact Hreach | constructor].
Qed.

(** X19: a server whose configuration has [registers_paths] off never
    sends a path record, whatever it handled and ran. *)
Theorem no_record_without_registers_paths (role : Role) (s : State) :
  registers_paths (config self) = false ->
  reachable role self s ->
  Forall (fun x => packet_kind x = None) (sent s).
Proof.
  intros Hoff Hreach. apply reachable_inv in Hreach as (_ & _ & _ & Hsent).
  eapply Forall_impl; [exact Hsent|].
  intros [pkt dst]. unfold sent_ok, packet_kind; simpl.
  destruct pkt; [reflexivity|]. intros [Hon _]. congruence.
Qed.

End Safety.

(** ** The further properties on the example servers *)

Lemma example_leaf_state_ok :
  @queue_ok (heap example_leaf_state) (beacons example_leaf_state).
Proof. repeat constructor; eexists; reflexivity. Defined.

Lemma example_inbound_state_ok :
  @queue_ok (heap example_inbound_state) (beacons example_inbound_state).
Proof. constructor. Defined.

Lemma example_inbound_arrivals_ok :
  @queue_ok (heap example_inbound_state) [0%nat; 1%nat; 2%nat].
Proof. repeat constructor; eexists; reflexivity. Defined.

Lemma example_leaf_registrable :
  @registrable HopListLib example_leaf (heap example_leaf_state)
    (reg_queue example_leaf_state).
Proof.
  repeat (constructor;
          [eexists; split; [reflexivity | eexists; vm_compute; reflexivity]|]).
  constructor.
Defined.

Lemma example_core_registrable :
  @registrable HopListLib example_core (heap example_core_state)
    (reg_queue example_core_state).
Proof.
  repeat (constructor;
          [eexists; split; [reflexivity | eexists; vm_compute; reflexivity]|]).
  constructor.
Defined.

Lemma example_reached_core_reachable :
  @reachable HopListLib Core example_core example_reached_core.
Proof.
  unfold example_reached_core.
  eapply reachable_step; [|apply step_propagate].
  eapply reachable_step; [apply reachable_start | apply step_receive].
Defined.

Lemma example_reached_leaf_reachable :
  @reachable HopListLib Local example_leaf example_reached_leaf.
Proof.
  unfold example_reached_leaf.
  eapply reachable_step; [|apply step_register].
  eapply reachable_step; [|apply step_propagate].
  eapply reachable_step; [apply reachable_start | apply step_receive].
Defined.

Lemma example_reached_quiet_reachable :
  @reachable HopListLib Local example_leaf_quiet example_reached_quiet.
Proof.
  unfold example_reached_quiet.
  eapply reachable_step; [|apply step_register].
  eapply reachable_step; [|apply step_propagate].
  eapply reachable_step; [apply reachable_start | apply step_receive].
Defined.

(** X5 on the example leaf server: two queued beacons, one child. *)
Lemma leaf_round_propagates_witness :
  exists s' : State,
    @BeaconServer.handle_pcbs_propagation_round HopListLib example_leaf
      example_leaf_state = Returned tt s' /\
    length (sent s') = 2%nat /\ beacons s' = [] /\
    reg_queue s' = [0%nat; 1%nat; 0%nat; 1%nat].
Proof.
  destruct (@leaf_round_propagates HopListLib example_leaf example_leaf_state
              example_leaf_state_ok)
    as (s' & Hrun & _ & Hlen & Hb & Hr & _).
  exists s'. repeat split; assumption.
Defined.

(** X6 on the example core element with nothing queued. *)
Lemma idle_rounds_witness :
  beacons example_inbound_state = [] /\
  @BeaconServer.handle_pcbs_propagation_round HopListLib example_core
    example_inbound_state = Returned tt example_inbound_state /\
  exists s' : State,
    @CoreBeaconServer.handle_pcbs_propagation_round HopListLib example_core
      1420070401 example_inbound_state = Returned tt s' /\
    length (sent s') = 3%nat.
Proof.
  split; [reflexivity|].
  destruct (@idle_rounds HopListLib example_core 1420070401
              example_inbound_state eq_refl)
    as (Hleaf & s' & Hrun & _ & Hlen & _).
  split; [exact Hleaf|]. exists s'. split; assumption.
Defined.

(** X7 on the example leaf server. *)
Lemma leaf_round_twice_witness :
  (@BeaconServer.handle_pcbs_propagation_round HopListLib example_leaf ;>
   @BeaconServer.handle_pcbs_propagation_round HopListLib example_leaf)
    example_leaf_state =
  @BeaconServer.handle_pcbs_propagation_round HopListLib example_leaf
    example_leaf_state.
Proof.
  apply (@leaf_round_twice HopListLib example_leaf example_leaf_state
           example_leaf_state_ok).
Defined.

(** X8 on the example leaf server: three arrivals, forwarded in order. *)
Lemma leaf_forwards_in_arrival_order_witness :
  exists s' : State,
    (@accept_all HopListLib Local example_leaf [0%nat; 1%nat; 2%nat] ;>
     @BeaconServer.handle_pcbs_propagation_round HopListLib example_leaf)
      example_inbound_state = Returned tt s' /\
    reg_queue s' = [0%nat; 1%nat; 2%nat] /\ beacons s' = [].
Proof.
  destruct (@leaf_forwards_in_arrival_order HopListLib example_leaf
              [0%nat; 1%nat; 2%nat] example_inbound_state
              example_inbound_state_ok example_inbound_arrivals_ok)
    as (s' & Hrun & _ & Hb & Hr).
  exists s'. repeat split; assumption.
Defined.

(** X9 on the example core server: of three arrivals the one that went
    through AD 5 is left out. *)
Lemma core_forwards_unseen_arrivals_only_witness :
  exists s' : State,
    (@accept_all HopListLib Core example_core [0%nat; 1%nat; 2%nat] ;>
     @CoreBeaconServer.handle_pcbs_propagation_round HopListLib example_core
       1420070401)
      example_inbound_state = Returned tt s' /\
    reg_queue s' = [1%nat; 2%nat] /\ beacons s' = [].
Proof.
  destruct (@core_forwards_unseen_arrivals_only HopListLib example_core
              1420070401 [0%nat; 1%nat; 2%nat] example_inbound_state
              example_inbound_state_ok example_inbound_arrivals_ok)
    as (s' & Hrun & _ & Hb & Hr).
  exists s'. repeat split; assumption.
Defined.

(** X10 on the example core server: the records go to the path server at
    200 and to the core router at 102. *)
Lemma core_registers_with_local_and_origin_witness :
  heap example_core_state !! 0%nat = Some (example_beacon 12) /\
  servers (topology example_core) !! PATH_SERVER = Some (mkServer 200) /\
  ifid2addr example_core !! 12 = Some 102 /\
  exists s' : State,
    @CoreBeaconServer.register_one HopListLib example_core 0%nat
      example_core_state = Returned tt s' /\
    map (fun x => snd x) (sent s') = [200; 102].
Proof.
  split; [reflexivity|]. split; [reflexivity|]. split; [reflexivity|].
  destruct (@core_registers_with_local_and_origin HopListLib example_core
              example_core_state 0%nat (example_beacon 12) (mkServer 200) 102
              eq_refl eq_refl eq_refl) as [Hrun _].
  eexists. split; [exact Hrun|]. reflexivity.
Defined.

(** X11 on the leaf server without a path server. *)
Lemma leaf_without_path_server_raises_witness :
  servers (topology example_leaf_without_ps) !! PATH_SERVER = None /\
  exists s' : State,
    @LocalBeaconServer.register_paths_round HopListLib example_leaf_without_ps
      example_leaf_state = Raised KeyError s' /\
    sent s' = [] /\ reg_queue s' = [1%nat].
Proof.
  split; [reflexivity|].
  destruct (@leaf_without_path_server_raises HopListLib
              example_leaf_without_ps example_leaf_state 0%nat [1%nat]
              (example_beacon 3) eq_refl eq_refl eq_refl)
    as (s' & Hrun & Hsent & Hr & _).
  exists s'. repeat split; assumption.
Defined.

(** X12 on the example leaf server: four records for two beacons. *)
Lemma leaf_registration_round_drains_witness :
  exists s' : State,
    @LocalBeaconServer.register_paths_round HopListLib example_leaf
      example_leaf_state = Returned tt s' /\
    reg_queue s' = [] /\ length (sent s') = 4%nat.
Proof.
  destruct (@leaf_registration_round_drains HopListLib example_leaf
              (mkServer 900) example_leaf_state eq_refl
              example_leaf_registrable)
    as (s' & Hrun & Hr & _ & _ & Hlen & _).
  exists s'. repeat split; assumption.
Defined.

(** X13 on the example core server: four records for two beacons. *)
Lemma core_registration_round_drains_witness :
  exists s' : State,
    @CoreBeaconServer.register_paths_round HopListLib example_core
      example_core_state = Returned tt s' /\
    reg_queue s' = [] /\ length (sent s') = 4%nat.
Proof.
  destruct (@core_registration_round_drains HopListLib example_core
              example_core_state example_core_registrable)
    as (s' & Hrun & Hr & _ & _ & Hlen & _).
  exists s'. repeat split; assumption.
Defined.

(** X14 on the example leaf server, with the two beacons in the inbound
    queue only: two beacon packets, then four records. *)
Lemma leaf_propagates_then_registers_witness :
  exists s' : State,
    (@BeaconServer.handle_pcbs_propagation_round HopListLib example_leaf ;>
     @LocalBeaconServer.register_paths_round HopListLib example_leaf)
      (@mkState HopListLib [0%nat; 1%nat] []
         [example_beacon 3; example_beacon 3] [])
      = Returned tt s' /\
    beacons s' = [] /\ reg_queue s' = [] /\
    map (fun x => snd x) (sent s') = [302; 302; 900; 301; 900; 301].
Proof.
  destruct (@leaf_propagates_then_registers HopListLib example_leaf
              (mkServer 900)
              (@mkState HopListLib [0%nat; 1%nat] []
                 [example_beacon 3; example_beacon 3] [])
              eq_refl example_leaf_registrable)
    as (s' & Hrun & Hb & Hr & Hsent).
  exists s'. split; [exact Hrun|]. split; [exact Hb|]. split; [exact Hr|].
  rewrite Hsent. reflexivity.
Defined.

(** X16 on the example core server after a beacon and a round. *)
Lemma core_sends_loop_free_beacons_witness :
  length (sent example_reached_core) = 5%nat /\
  Forall
    (fun x =>
       match fst x with
       | BeaconPacket _ q =>
           @visits_once example_core q /\
           @beacon_to_one_of HopListLib
             (routers (topology example_core) CHILD
              ++ routers (topology example_core) ROUTING)
             x
       | PathRecordsPacket _ info _ _ => pi_type info = PIT_CORE
       end)
    (sent example_reached_core).
Proof.
  split; [reflexivity|].
  apply (@core_sends_loop_free_beacons HopListLib example_core
           example_reached_core example_reached_core_reachable).
Defined.

(** X17 on the example leaf server after a beacon, a round and a
    registration. *)
Lemma leaf_sends_downstream_only_witness :
  length (sent example_reached_leaf) = 3%nat /\
  Forall
    (fun x =>
       match fst x with
       | BeaconPacket _ q =>
           @beacon_to_one_of HopListLib
             (routers (topology example_leaf) CHILD) x /\
           exists (pre : list ADMarking) (m : ADMarking),
             ads q = pre ++ [m] /\ own_marking example_leaf m
       | PathRecordsPacket _ info _ _ =>
           pi_type info = PIT_UP \/ pi_type info = PIT_DOWN
       end)
    (sent example_reached_leaf).
Proof.
  split; [reflexivity|].
  apply (@leaf_sends_downstream_only HopListLib example_leaf
           example_reached_leaf example_reached_leaf_reachable).
Defined.

(** X18 on the example core server. *)
Lemma propagation_never_raises_witness :
  exists s' : State,
    @propagation_round HopListLib Core example_core 1420070405
      example_reached_core = Returned tt s' /\
    beacons s' = [] /\ @reachable HopListLib Core example_core s'.
Proof.
  apply (@propagation_never_raises HopListLib example_core Core 1420070405
           example_reached_core example_reached_core_reachable).
Defined.

(** X19 on the quiet leaf server: one beacon packet, no record. *)
Lemma no_record_without_registers_paths_witness :
  registers_paths (config example_leaf_quiet) = false /\
  length (sent example_reached_quiet) = 1%nat /\
  Forall (fun x => @packet_kind HopListLib x = None)
    (sent example_reached_quiet).
Proof.
  split; [reflexivity|]. split; [reflexivity|].
  apply (@no_record_without_registers_paths HopListLib example_leaf_quiet
           Local example_reached_quiet eq_refl
           example_reached_quiet_reachable).
Defined.

(** ** A registration round that meets a beacon without a next hop *)

Section BlockedRegistration.
Context `{PacketLib} (self : SCIONElement).

(** The inner loop of a registration round on a queue whose beacons
    [ready] can be registered and whose next beacon [r] makes the body
    raise after sending [partial]: the loop registers [ready], pops [r],
    and raises with the rest still queued. *)
Lemma registration_loop_blocked (body : ref -> Exec unit)
  (records : HalfPathBeacon -> HostAddr -> list (Packet * HostAddr))
  (partial : HalfPathBeacon -> list (Packet * HostAddr))
  (r : ref) (rest : list ref) (p : HalfPathBeacon) :
  (forall s r0 p0 next_hop,
     heap s !! r0 = Some p0 -> next_hop_of self p0 = Some next_hop ->
     body r0 s =
     Returned tt
       (registered s (registered_copy self p0) (records p0 next_hop))) ->
  (forall s, heap s !! r = Some p ->
     body r s =
     Raised KeyError (registered s (registered_copy self p) (partial p))) ->
  forall (ready : list ref) (fuel : nat) (s : State),
    reg_queue s = ready ++ r :: rest ->
    registrable self (heap s) ready ->
    heap s !! r = Some p ->
    (length ready < fuel)%nat ->
    while_popleft fuel reg_queue_popleft body s =
    Raised KeyError
      (mkState (beacons s) rest
         (heap s ++ map (registered_copy self) (stored (heap s) ready)
                 ++ [registered_copy self p])
         (sent s ++ records_of self records (heap s) ready ++ partial p)).
Proof.
  intros Hgood Hbad.
  induction ready as [|r0 ready IH]; intros fuel s Hq Hok Hp Hfuel;
    (destruct fuel as [|fuel]; [simpl in Hfuel; lia|]);
    simpl while_popleft; unfold bind at 1; unfold reg_queue_popleft;
    rewrite Hq; simpl app.
  - unfold bind at 1. rewrite Hbad by exact Hp.
    unfold registered, records_of. reflexivity.
  - inversion Hok as [|? ? (p0 & Hp0 & [next_hop Hhop]) Hrest]; subst.
    unfold bind at 1. rewrite (Hgood _ r0 p0 next_hop) by assumption.
    rewrite (IH fuel); simpl.
    + unfold records_of.
      rewrite stored_app by (now apply (registrable_ok self)).
      simpl. rewrite Hp0. simpl. rewrite Hhop.
      rewrite <- !app_assoc. reflexivity.
    + reflexivity.
    + now apply registrable_app.
    + now apply lookup_app_l_Some.
    + simpl in Hfuel. lia.
Qed.

(** X21: on a core server a registration round stops at the first queued
    beacon whose reversed path starts at an interface the table does not
    have.  The beacons before it are registered as usual; for the beacon
    itself the record for the local path server, if there is one, is
    sent; then [KeyError] is raised, the beacon is gone from the queue,
    and the beacons behind it stay queued. *)
Theorem core_registration_stops_at_unknown_next_hop
  (s : State) (ready : list ref) (r : ref) (rest : list ref)
  (p : HalfPathBeacon) :
  reg_queue s = ready ++ r :: rest ->
  registrable self (heap s) ready ->
  heap s !! r = Some p ->
  next_hop_of self p = None ->
  CoreBeaconServer.register_paths_round self s =
    Raised KeyError
      (mkState (beacons s) rest
         (heap s ++ map (registered_copy self) (stored (heap s) ready)
                 ++ [registered_copy self p])
         (sent s ++ records_of self (core_records self) (heap s) ready
                 ++ local_registration self (core_info self p)
                      (terminated self p))).
Proof.
  intros Hq Hok Hp Hhop.
  assert (length ready < length (reg_queue s))%nat as Hfuel
    by (rewrite Hq, length_app; simpl; lia).
  unfold next_hop_of, registered_copy in Hhop.
  unfold CoreBeaconServer.register_paths_round.
  apply (registration_loop_blocked _ (core_records self)
           (fun p => local_registration self (core_info self p)
                       (terminated self p)) r rest p);
    try assumption.
  - intros s0 r0 p0 next_hop Hp0 Hhop0.
    rewrite (core_register_one_spec self s0 r0 p0 Hp0). cbv zeta.
    unfold next_hop_of, registered_copy in Hhop0. rewrite Hhop0.
    reflexivity.
  - intros s0 Hp0.
    rewrite (core_register_one_spec self s0 r p Hp0). cbv zeta.
    rewrite Hhop. reflexivity.
Qed.

(** X22: on a leaf server with a path server a registration round stops
    at the first queued beacon whose reversed path starts at an interface
    the table does not have.  The beacons before it are registered UP and
    DOWN; for the beacon itself the UP record is sent; then [KeyError] is
    raised, the beacon is gone from the queue without a DOWN record, and
    the beacons behind it stay queued. *)
Theorem leaf_registration_stops_at_unknown_next_hop
  (ps : ServerElement) (s : State)
  (ready : list ref) (r : ref) (rest : list ref) (p : HalfPathBeacon) :
  servers (topology self) !! PATH_SERVER = Some ps ->
  reg_queue s = ready ++ r :: rest ->
  registrable self (heap s) ready ->
  heap s !! r = Some p ->
  next_hop_of self p = None ->
  LocalBeaconServer.register_paths_round self s =
    Raised KeyError
      (mkState (beacons s) rest
         (heap s ++ map (registered_copy self) (stored (heap s) ready)
                 ++ [registered_copy self p])
         (sent s ++ records_of self (leaf_records self ps) (heap s) ready
                 ++ [local_record ps (leaf_info self PIT_UP p)
                       (terminated self p)])).
Proof.
  intros Hps Hq Hok Hp Hhop.
  assert (length ready < length (reg_queue s))%nat as Hfuel
    by (rewrite Hq, length_app; simpl; lia).
  unfold next_hop_of, registered_copy in Hhop.
  unfold LocalBeaconServer.register_paths_round.
  apply (registration_loop_blocked _ (leaf_records self ps)
           (fun p => [local_record ps (leaf_info self PIT_UP p)
                        (terminated self p)]) r rest p);
    try assumption.
  - intros s0 r0 p0 next_hop Hp0 Hhop0.
    rewrite (local_register_one_spec self s0 r0 p0 Hp0). cbv zeta.
    rewrite Hps.
    unfold next_hop_of, registered_copy in Hhop0. rewrite Hhop0.
    reflexivity.
  - intros s0 Hp0.
    rewrite (local_register_one_spec self s0 r p Hp0). cbv zeta.
    rewrite Hps, Hhop. reflexivity.
Qed.

End BlockedRegistration.

Lemma example_blocked_ready_core :
  @registrable HopListLib example_core (heap (example_blocked_state 12))
    [0%nat].
Proof.
  repeat (constructor;
          [eexists; split; [reflexivity | eexists; vm_compute; reflexivity]|]).
  constructor.
Defined.

Lemma example_blocked_ready_leaf :
  @registrable HopListLib example_leaf (heap (example_blocked_state 3))
    [0%nat].
Proof.
  repeat (constructor;
          [eexists; split; [reflexivity | eexists; vm_compute; reflexivity]|]).
  constructor.
Defined.

(** X21 on the example core server: the first beacon is registered with
    two records, the second gets its local record only, the third stays
    queued. *)
Lemma core_registration_stops_at_unknown_next_hop_witness :
  exists s' : State,
    @CoreBeaconServer.register_paths_round HopListLib example_core
      (example_blocked_state 12) = Raised KeyError s' /\
    reg_queue s' = [2%nat] /\
    map (fun x => snd x) (sent s') = [200; 102; 200].
Proof.
  eexists. split.
  - apply (@core_registration_stops_at_unknown_next_hop HopListLib
             example_core (example_blocked_state 12) [0%nat] 1%nat [2%nat]
             (example_beacon 77) eq_refl example_blocked_ready_core
             eq_refl eq_refl).
  - split; reflexivity.
Defined.

(** X22 on the example leaf server. *)
Lemma leaf_registration_stops_at_unknown_next_hop_witness :
  exists s' : State,
    @LocalBeaconServer.register_paths_round HopListLib example_leaf
      (example_blocked_state 3) = Raised KeyError s' /\
    reg_queue s' = [2%nat] /\
    map (fun x => snd x) (sent s') = [900; 301; 900].
Proof.
  eexists. split.
  - apply (@leaf_registration_stops_at_unknown_next_hop HopListLib
             example_leaf (mkServer 900) (example_blocked_state 3)
             [0%nat] 1%nat [2%nat] (example_beacon 77)
             eq_refl eq_refl example_blocked_ready_leaf eq_refl eq_refl).
  - split; reflexivity.
Defined.

